(** * Verification of deploy/install.js

    A shallow embedding of the installer of the client deployment template:
    [loadEnv], [getClaudeConfigPath] and [install], with the JavaScript
    primitives they rely on ([String.prototype.trim], [split], [replace]
    with a global regular expression, object spread, property assignment).

    Conventions.
    - A JavaScript string is a [string]; each character stands for one
      UTF-16 code unit below 256.
    - [undefined] is [None] in an [option].
    - A thrown exception is a [js_error]; the code under verification only
      ever inspects its [code] and [message].
    - The file system, the clock and the operating system are a [host]. *)

From Stdlib Require Import String Ascii List NArith Lia Bool.
From Stdlib Require Import DecimalString.
From stdpp Require Import base option gmap strings.
Import ListNotations.

Local Open Scope string_scope.
Local Open Scope list_scope.
Local Set Warnings "-register-all".

(** ** JavaScript strings *)

Module Str.

(** The characters [String.prototype.trim] strips: TAB, LF, VT, FF, CR,
    SPACE and NBSP (the white space and line terminators below 256). *)
Definition is_space (c : ascii) : bool :=
  let n := N_of_ascii c in
  ((9 <=? n) && (n <=? 13) || (n =? 32) || (n =? 160))%N.

Fixpoint trimStart (s : string) : string :=
  match s with
  | String c r => if is_space c then trimStart r else s
  | EmptyString => EmptyString
  end.

Fixpoint trimEnd (s : string) : string :=
  match s with
  | String c r =>
      match trimEnd r with
      | EmptyString => if is_space c then EmptyString else String c EmptyString
      | r' => String c r'
      end
  | EmptyString => EmptyString
  end.

(** [s.trim()] *)
Definition trim (s : string) : string := trimEnd (trimStart s).

(** A text of white space only: what [trim] turns into the empty string. *)
Fixpoint blank (s : string) : bool :=
  match s with
  | String c r => is_space c && blank r
  | EmptyString => true
  end.

(** [strip_prefix p s] is [Some r] when [s = p ++ r]. *)
Fixpoint strip_prefix (p s : string) : option string :=
  match p, s with
  | EmptyString, _ => Some s
  | String a p', String b s' =>
      if Ascii.eqb a b then strip_prefix p' s' else None
  | String _ _, EmptyString => None
  end.

(** [s.startsWith(p)] *)
Definition startsWith (p s : string) : bool :=
  match strip_prefix p s with Some _ => true | None => false end.

(** [s.split(sep)] for a separator of one character; the result always
    has at least one element. *)
Fixpoint split (sep : ascii) (s : string) : list string :=
  match s with
  | EmptyString => [EmptyString]
  | String c r =>
      if Ascii.eqb c sep then EmptyString :: split sep r
      else match split sep r with
           | h :: t => String c h :: t
           | [] => [String c EmptyString]
           end
  end.

(** [parts.join(sep)] *)
Definition join (sep : string) (parts : list string) : string :=
  String.concat sep parts.

(** [GetSubstitution] of ECMA-262 for a pattern without capture groups:
    in the replacement text, [$$] is a dollar sign, [$&] the matched
    text, [$`] the text before the match and [$'] the text after it;
    every other dollar sign stands for itself. *)
Fixpoint expand (repl matched before after : string) : string :=
  match repl with
  | EmptyString => EmptyString
  | String c tl =>
      if Ascii.eqb c "$" then
        match tl with
        | String d tl' =>
            if Ascii.eqb d "$" then String "$" (expand tl' matched before after)
            else if Ascii.eqb d "&" then matched ++ expand tl' matched before after
            else if Ascii.eqb d "`" then before ++ expand tl' matched before after
            else if Ascii.eqb d "'" then after ++ expand tl' matched before after
            else String c (expand tl matched before after)
        | EmptyString => String c EmptyString
        end
      else String c (expand tl matched before after)
  end.

(** The scan behind [s.replace(/tok/g, repl)] for a literal, non-empty
    [tok].  [before] is the part of the subject already passed, [skip]
    counts the characters of the current match still to be passed.
    Matches are found left to right in the subject itself and do not
    overlap; the text inserted for a match is not scanned again. *)
Fixpoint replace_from (tok repl before : string) (skip : nat) (s : string)
  : string :=
  match s with
  | EmptyString => EmptyString
  | String c r =>
      match skip with
      | S k => replace_from tok repl (before ++ String c EmptyString) k r
      | O =>
          match strip_prefix tok s with
          | Some after =>
              expand repl tok before after
              ++ replace_from tok repl (before ++ String c EmptyString)
                   (String.length tok - 1) r
          | None =>
              String c (replace_from tok repl (before ++ String c EmptyString) 0 r)
          end
      end
  end.

(** [s.replace(/tok/g, repl)]; a regular expression that is one literal
    token never matches the empty string. *)
Definition replaceAll (tok repl s : string) : string :=
  match tok with
  | EmptyString => s
  | _ => replace_from tok repl EmptyString 0 s
  end.

(** [tok] occurs somewhere in [s]. *)
Fixpoint occurs (tok s : string) : bool :=
  match strip_prefix tok s with
  | Some _ => true
  | None => match s with
            | String _ r => occurs tok r
            | EmptyString => false
            end
  end.

(** Decimal spelling of a natural number, as [String(n)] prints it. *)
Definition of_N (n : N) : string := NilEmpty.string_of_uint (N.to_uint n).

(** The text with every apostrophe turned into a double quote, to spell
    JSON examples. *)
Fixpoint dq (s : string) : string :=
  match s with
  | EmptyString => EmptyString
  | String c r => String (if Ascii.eqb c "'" then ascii_of_nat 34 else c) (dq r)
  end.

End Str.

(** ** JSON values and JavaScript objects *)

Module Json.

(** A value produced by [JSON.parse].  A number is kept as the text
    [JSON.stringify] prints for it, so that zero is ["0"]; the
    properties of an object are listed in own-property order. *)
Inductive json : Type :=
| JNull
| JBool (b : bool)
| JNum (lit : string)
| JStr (s : string)
| JArr (elems : list json)
| JObj (props : list (string * json)).

(** ToBoolean; [None] is [undefined]. *)
Definition truthy (v : option json) : bool :=
  match v with
  | None | Some JNull => false
  | Some (JBool b) => b
  | Some (JNum lit) => negb (String.eqb lit "0")
  | Some (JStr s) => negb (String.eqb s "")
  | Some (JArr _) | Some (JObj _) => true
  end.

(** [typeof v] for the primitives. *)
Definition typeof (v : json) : string :=
  match v with
  | JNull | JArr _ | JObj _ => "object"
  | JBool _ => "boolean"
  | JNum _ => "number"
  | JStr _ => "string"
  end.

(** How V8 shows a primitive inside an error message. *)
Definition display (v : json) : string :=
  match v with
  | JBool true => "true"
  | JBool false => "false"
  | JNum lit => lit
  | JStr s => s
  | JNull => "null"
  | JArr _ | JObj _ => "[object]"
  end.

(** An array index in the sense of ECMA-262: the canonical decimal
    spelling of an integer below 2^32 - 1. *)
Definition digit (c : ascii) : option N :=
  let n := N_of_ascii c in
  if ((48 <=? n) && (n <=? 57))%N then Some (n - 48)%N else None.

Fixpoint digits (acc : N) (s : string) : option N :=
  match s with
  | EmptyString => Some acc
  | String c r =>
      match digit c with
      | Some d => digits (acc * 10 + d)%N r
      | None => None
      end
  end.

Definition array_index (k : string) : option N :=
  match k with
  | EmptyString => None
  | String c r =>
      if Ascii.eqb c "0" && negb (String.eqb r "") then None
      else if (10 <? String.length k)%nat then None
      else match digits 0 k with
           | Some n => if (n <? 4294967295)%N then Some n else None
           | None => None
           end
  end.

(** Own property lookup in a property list. *)
Fixpoint assoc (k : string) (props : list (string * json)) : option json :=
  match props with
  | [] => None
  | (k', v) :: rest => if String.eqb k k' then Some v else assoc k rest
  end.

Fixpoint replace_first (k : string) (v : json) (props : list (string * json))
  : list (string * json) :=
  match props with
  | [] => []
  | (k', v') :: rest =>
      if String.eqb k k' then (k, v) :: rest
      else (k', v') :: replace_first k v rest
  end.

(** Where a new property goes: array indices come first, in ascending
    order; every other key goes last, in creation order. *)
Fixpoint insert_index (i : N) (k : string) (v : json)
  (props : list (string * json)) : list (string * json) :=
  match props with
  | [] => [(k, v)]
  | (k', v') :: rest =>
      match array_index k' with
      | Some j =>
          if (j <? i)%N then (k', v') :: insert_index i k v rest
          else (k, v) :: props
      | None => (k, v) :: props
      end
  end.

(** CreateDataProperty on an ordinary object: an existing property keeps
    its place and takes the new value; a new one is added. *)
Definition define (k : string) (v : json) (props : list (string * json))
  : list (string * json) :=
  match assoc k props with
  | Some _ => replace_first k v props
  | None =>
      match array_index k with
      | Some i => insert_index i k v props
      | None => props ++ [(k, v)]
      end
  end.

(** The characters of a string, as the one-character strings its
    wrapper object exposes. *)
Fixpoint chars (s : string) : list json :=
  match s with
  | EmptyString => []
  | String c r => JStr (String c EmptyString) :: chars r
  end.

Fixpoint indexed (i : N) (l : list json) : list (string * json) :=
  match l with
  | [] => []
  | x :: r => (Str.of_N i, x) :: indexed (N.succ i) r
  end.

(** The own enumerable string-keyed properties of [ToObject(v)]:
    the properties of an object, the elements of an array, the
    characters of a string; a number or a boolean has none. *)
Definition own_props (v : json) : list (string * json) :=
  match v with
  | JObj props => props
  | JArr elems => indexed 0 elems
  | JStr s => indexed 0 (chars s)
  | JNull | JBool _ | JNum _ => []
  end.

(** [Object.keys(v)] *)
Definition keys (v : json) : list string := map fst (own_props v).

(** [v[k]] for an own enumerable property [k]. *)
Definition get_own (v : json) (k : string) : option json :=
  assoc k (own_props v).

(** CopyDataProperties: what a spread element [...src] does to the
    object under construction.  [undefined] and [null] contribute
    nothing; otherwise each own enumerable key of the source is read
    and defined on the target, in key order. *)
Definition spread (target : list (string * json)) (src : option json)
  : list (string * json) :=
  match src with
  | None | Some JNull => target
  | Some v =>
      fold_left
        (fun t k => match get_own v k with
                    | Some x => define k x t
                    | None => t
                    end)
        (keys v) target
  end.

(** [{ ...a, ...b }] *)
Definition spread2 (a b : option json) : json :=
  JObj (spread (spread [] a) b).

End Json.
Export Json.

(** ** The world around the installer *)

(** What the code can see of a thrown value: [err.code] and
    [err.message]. *)
Record js_error : Type := JsError {
  err_code : option string;
  err_message : string
}.

(** An [Error], [TypeError] or [SyntaxError] built by the language: it has
    no [code]. *)
Definition plain_error (msg : string) : js_error :=
  {| err_code := None; err_message := msg |}.

(** The operating system, the clock and the file system as one run of the
    installer meets them.  [readFile] is [fs.readFile(path, 'utf-8')],
    [mkdir_p] is [fs.mkdir(dir, {recursive: true})] and [writeFile] is
    [fs.writeFile]; the last two answer [None] when they succeed. *)
Record host : Type := Host {
  rootDir : string;
  platform : string;
  homedir : string;
  env_APPDATA : option string;
  env_DEBUG : option string;
  now : N;
  path_join : string -> string -> string;
  path_dirname : string -> string;
  readFile : string -> js_error + string;
  mkdir_p : string -> option js_error;
  writeFile : string -> string -> option js_error
}.

Inductive level : Type := Info | Success | Warning | Error.

(** What a run does that can be observed from outside, in order. *)
Inductive event : Type :=
| EvPrint (line : string)
| EvLog (l : level) (msg : string)
| EvStack (e : js_error)
| EvMkdir (dir : string) (ok : bool)
| EvWrite (path content : string) (ok : bool).

(** A computation that may throw, together with the events it has
    produced so far. *)
Definition io (A : Type) : Type := list event * (js_error + A).

Definition ret {A} (a : A) : io A := ([], inr a).
Definition throw {A} (e : js_error) : io A := ([], inl e).
Definition emit (ev : event) : io unit := ([ev], inr tt).

Definition bind {A B} (m : io A) (k : A -> io B) : io B :=
  match m with
  | (t, inl e) => (t, inl e)
  | (t, inr a) => let '(t', r) := k a in (t ++ t', r)
  end.

(** [try { m } catch (err) { h err }] *)
Definition catch {A} (m : io A) (h : js_error -> io A) : io A :=
  match m with
  | (t, inl e) => let '(t', r) := h e in (t ++ t', r)
  | (t, inr a) => (t, inr a)
  end.

Declare Scope io_scope.
Delimit Scope io_scope with io.
Notation "x <- m ;; k" := (bind m (fun x => k))
  (at level 100, m at next level, right associativity) : io_scope.
Notation "m ;; k" := (bind m (fun _ => k))
  (at level 100, right associativity) : io_scope.
Local Open Scope io_scope.

Definition console_log (line : string) : io unit := emit (EvPrint line).
Definition info (msg : string) : io unit := emit (EvLog Info msg).
Definition success (msg : string) : io unit := emit (EvLog Success msg).
Definition warning (msg : string) : io unit := emit (EvLog Warning msg).
Definition error (msg : string) : io unit := emit (EvLog Error msg).

Definition fs_readFile (h : host) (path : string) : io string :=
  match readFile h path with
  | inl e => throw e
  | inr content => ret content
  end.

Definition fs_mkdir (h : host) (dir : string) : io unit :=
  match mkdir_p h dir with
  | Some e => emit (EvMkdir dir false) ;; throw e
  | None => emit (EvMkdir dir true)
  end.

Definition fs_writeFile (h : host) (path content : string) : io unit :=
  match writeFile h path content with
  | Some e => emit (EvWrite path content false) ;; throw e
  | None => emit (EvWrite path content true)
  end.

(** How a run ends: the function returns, or [process.exit(code)]. *)
Inductive ending : Type := Completed | Exited (code : nat).

(** ** loadEnv *)

(** [env[key] = value] on the object literal [{}]: every key becomes an
    own property, except [__proto__], whose setter ignores a string. *)
Definition env_set (key value : string) (env : gmap string string)
  : gmap string string :=
  if String.eqb key "__proto__" then env else <[key := value]> env.

(** The body of the [forEach] callback. *)
Definition env_line (env : gmap string string) (line : string)
  : gmap string string :=
  let line := Str.trim line in
  if negb (String.eqb line "") && negb (Str.startsWith "#" line) then
    match Str.split "=" line with
    | key :: valueParts =>
        env_set (Str.trim key) (Str.trim (Str.join "=" valueParts)) env
    | [] => env
    end
  else env.

Definition parse_env (envContent : string) : gmap string string :=
  fold_left env_line (Str.split "010" envContent) ∅.

Definition loadEnv (h : host) : io (gmap string string) :=
  catch
    (let envPath := path_join h (rootDir h) ".env" in
     envContent <- fs_readFile h envPath ;;
     ret (parse_env envContent))
    (fun err =>
       if decide (err_code err = Some "ENOENT") then
         warning ".env file not found, using defaults" ;;
         ret ∅
       else throw err).

(** ** getClaudeConfigPath *)

Definition getClaudeConfigPath (h : host) : io string :=
  if String.eqb (platform h) "darwin" then
    ret (path_join h (homedir h)
           "Library/Application Support/Claude/claude_desktop_config.json")
  else if String.eqb (platform h) "linux" then
    ret (path_join h (homedir h) ".config/Claude/claude_desktop_config.json")
  else if String.eqb (platform h) "win32" then
    match env_APPDATA h with
    | Some appdata => ret (path_join h appdata "Claude/claude_desktop_config.json")
    | None =>
        throw {| err_code := Some "ERR_INVALID_ARG_TYPE";
                 err_message :=
                   Str.dq "The 'path' argument must be of type string. Received undefined" |}
    end
  else throw (plain_error ("Unsupported platform: " ++ platform h)).

(** ** install *)

(** [v || d] on a value that is a string or [undefined]. *)
Definition or_else (v : option string) (d : string) : string :=
  match v with
  | Some EmptyString | None => d
  | Some s => s
  end.

(** The values the placeholders are replaced with (step 2). *)
Record params : Type := Params {
  installDir : string;
  orchestratorPath : string;
  hubspotPath : string;
  sharepointPath : string;
  asanaPath : string;
  hubspotUrl : string;
  sharepointUrl : string;
  asanaUrl : string;
  debug : string
}.

Definition default_hubspotUrl : string :=
  "https://hubspot-mcp-railway-production-386b.up.railway.app/mcp".
Definition default_sharepointUrl : string :=
  "https://sharepoint-mcp-railway-production.up.railway.app/mcp".
Definition default_asanaUrl : string :=
  "https://asana-mcp-railway-production.up.railway.app/sse".

Definition resolve (h : host) (env : gmap string string) : params :=
  let installDir := or_else (env !! "INSTALL_DIR") (homedir h) in
  {| installDir := installDir;
     orchestratorPath :=
       path_join h (rootDir h) "node_modules/@magicturtle/claude-orchestrator";
     hubspotPath :=
       or_else (env !! "HUBSPOT_PROJECT_PATH")
         (path_join h installDir "hubspot-mcp-railway");
     sharepointPath :=
       or_else (env !! "SHAREPOINT_PROJECT_PATH")
         (path_join h installDir "sharepoint-mcp-railway");
     asanaPath :=
       or_else (env !! "ASANA_PROJECT_PATH")
         (path_join h installDir "asana-mcp-railway");
     hubspotUrl := or_else (env !! "HUBSPOT_MCP_URL") default_hubspotUrl;
     sharepointUrl := or_else (env !! "SHAREPOINT_MCP_URL") default_sharepointUrl;
     asanaUrl := or_else (env !! "ASANA_MCP_URL") default_asanaUrl;
     debug := or_else (env !! "DEBUG") "false" |}.

(** [p.replace(/\\/g, '\\\\')]: every backslash is doubled. *)
Definition escape_backslashes (p : string) : string :=
  Str.replaceAll "\" "\\" p.

(** The eight replacements of step 3, in the order of the chain. *)
Definition substitutions (p : params) : list (string * string) :=
  [ ("{{ORCHESTRATOR_PATH}}", escape_backslashes (orchestratorPath p));
    ("{{HUBSPOT_PROJECT_PATH}}", escape_backslashes (hubspotPath p));
    ("{{SHAREPOINT_PROJECT_PATH}}", escape_backslashes (sharepointPath p));
    ("{{ASANA_PROJECT_PATH}}", escape_backslashes (asanaPath p));
    ("{{HUBSPOT_MCP_URL}}", hubspotUrl p);
    ("{{SHAREPOINT_MCP_URL}}", sharepointUrl p);
    ("{{ASANA_MCP_URL}}", asanaUrl p);
    ("{{DEBUG}}", debug p) ].

Definition render (p : params) (template : string) : string :=
  fold_left (fun text '(tok, value) => Str.replaceAll tok value text)
    (substitutions p) template.

(** [doc.mcpServers], read: [null] has no properties to read; nothing but
    an object can own the property. *)
Definition get_mcpServers (doc : json) : io (option json) :=
  match doc with
  | JNull =>
      throw (plain_error "Cannot read properties of null (reading 'mcpServers')")
  | JObj props => ret (assoc "mcpServers" props)
  | JBool _ | JNum _ | JStr _ | JArr _ => ret None
  end.

(** [doc.mcpServers = v], in a module (strict mode): a primitive cannot
    take a property.  An array takes it, but as a property that is not an
    element; [JSON.stringify], the only reader after the assignment,
    prints the elements alone, so the array is left as it is here. *)
Definition set_mcpServers (doc v : json) : io json :=
  match doc with
  | JObj props => ret (JObj (define "mcpServers" v props))
  | JArr elems => ret (JArr elems)
  | JNull =>
      throw (plain_error "Cannot set properties of null (setting 'mcpServers')")
  | JBool _ | JNum _ | JStr _ =>
      throw (plain_error ("Cannot create property 'mcpServers' on "
                          ++ typeof doc ++ " '" ++ display doc ++ "'"))
  end.

(** [v || {}] *)
Definition or_empty (v : option json) : json :=
  match v with
  | Some x => if truthy v then x else JObj []
  | None => JObj []
  end.

(** The document the installer starts from when the target is missing. *)
Definition shell : json := JObj [("mcpServers", JObj [])].

Definition template_file (h : host) : string :=
  path_join h (rootDir h) "config/claudeDesktopConfig.template.json".

Definition backup_path (h : host) (claudeConfigPath : string) : string :=
  claudeConfigPath ++ ".backup." ++ Str.of_N (now h).

Section Install.

(** [JSON.parse]: the value, or the message of the [SyntaxError]. *)
Variable JSON_parse : string -> string + json.
(** [JSON.stringify(v, null, 2)] *)
Variable JSON_stringify : json -> string.

Variable h : host.

Definition json_parse (text : string) : io json :=
  match JSON_parse text with
  | inl msg => throw (plain_error msg)
  | inr v => ret v
  end.

(** Steps 1 to 3: the rendered document. *)
Definition generate : io json :=
  info "Loading configuration..." ;;
  env <- loadEnv h ;;
  let p := resolve h env in
  success "Configuration loaded" ;;
  info ("  Install directory: " ++ installDir p) ;;
  info ("  Orchestrator: " ++ orchestratorPath p) ;;
  info "Generating Claude Desktop configuration..." ;;
  template <- fs_readFile h (template_file h) ;;
  json_parse (render p template).

(** "Read existing config or create new" *)
Definition read_existing (claudeConfigPath : string) : io json :=
  catch
    (existing <- fs_readFile h claudeConfigPath ;;
     json_parse existing)
    (fun err =>
       if decide (err_code err ≠ Some "ENOENT") then throw err
       else ret shell).

(** "Backup existing config" *)
Definition backup (claudeConfigPath : string) (claudeConfig : json) : io unit :=
  servers <- get_mcpServers claudeConfig ;;
  if (0 <? length (keys (or_empty servers)))%nat then
    let backupPath := backup_path h claudeConfigPath in
    fs_writeFile h backupPath (JSON_stringify claudeConfig) ;;
    info ("Backed up existing config to: " ++ backupPath)
  else ret tt.

(** "Merge configurations": the document after the assignment. *)
Definition merge (claudeConfig generatedConfig : json) : io json :=
  existing <- get_mcpServers claudeConfig ;;
  generated <- get_mcpServers generatedConfig ;;
  set_mcpServers claudeConfig (spread2 existing generated).

Definition summary (claudeConfigPath : string) : io unit :=
  console_log "
========================================" ;;
  console_log "Installation Complete!" ;;
  console_log "========================================
" ;;
  info "Next steps:" ;;
  console_log "  1. Restart Claude Desktop to load the orchestrator" ;;
  console_log "  2. In Claude Code, delegation tools are now available:" ;;
  console_log "     - delegate_hubspot_task" ;;
  console_log "     - delegate_sharepoint_task" ;;
  console_log "     - delegate_asana_task" ;;
  console_log "     - delegate_batch_tasks" ;;
  console_log "" ;;
  info "Configuration:" ;;
  console_log ("  - Claude config: " ++ claudeConfigPath) ;;
  console_log ("  - Environment: " ++ path_join h (rootDir h) ".env") ;;
  console_log "".

(** Step 4, from the target path on. *)
Definition update_target (generatedConfig : json) (claudeConfigPath : string)
  : io unit :=
  info ("Claude Desktop config: " ++ claudeConfigPath) ;;
  fs_mkdir h (path_dirname h claudeConfigPath) ;;
  claudeConfig <- read_existing claudeConfigPath ;;
  backup claudeConfigPath claudeConfig ;;
  claudeConfig <- merge claudeConfig generatedConfig ;;
  fs_writeFile h claudeConfigPath (JSON_stringify claudeConfig) ;;
  success "Claude Desktop configured".

(** The [try] block of [install]. *)
Definition install_body : io unit :=
  generatedConfig <- generate ;;
  claudeConfigPath <- getClaudeConfigPath h ;;
  update_target generatedConfig claudeConfigPath ;;
  summary claudeConfigPath.

(** The [catch] block of [install], up to [process.exit(1)]. *)
Definition install_failed (err : js_error) : io unit :=
  error ("Installation failed: " ++ err_message err) ;;
  if decide (env_DEBUG h = Some "true") then emit (EvStack err) else ret tt.

Definition banner : io unit :=
  console_log "
========================================" ;;
  console_log "Claude Client Deployment - Installation" ;;
  console_log "========================================
".

(** One run of [install()]: what it did, and how it ended. *)
Definition install : list event * ending :=
  match (banner ;; install_body) with
  | (t, inr _) => (t, Completed)
  | (t, inl err) => (t ++ fst (install_failed err), Exited 1)
  end.

End Install.

(** ** JSON text

    An executable reading of [JSON.parse] and [JSON.stringify(v, null, 2)]
    on a fragment of JSON, to run the installer on concrete files.  The
    fragment has every JSON form except numbers with a fraction or an
    exponent, integers of more than fifteen digits and [\u] escapes for
    code units above 255, all of which [parse] rejects here.  V8's wording of a syntax
    error is not reproduced: one fixed message stands for it.
    The properties proved of [install] do not depend on this reading:
    they hold for every parser and printer. *)

Module JsonText.

Local Open Scope string_scope.

Definition quote_char : ascii := ascii_of_nat 34.

Definition is_ws (c : ascii) : bool :=
  let n := N_of_ascii c in
  ((n =? 32) || (n =? 9) || (n =? 10) || (n =? 13))%N.

Fixpoint skip_ws (s : string) : string :=
  match s with
  | String c r => if is_ws c then skip_ws r else s
  | EmptyString => EmptyString
  end.

Definition hex (c : ascii) : option N :=
  let n := N_of_ascii c in
  if ((48 <=? n) && (n <=? 57))%N then Some (n - 48)%N
  else if ((97 <=? n) && (n <=? 102))%N then Some (n - 87)%N
  else if ((65 <=? n) && (n <=? 70))%N then Some (n - 55)%N
  else None.

(** The characters of a string literal after its opening quote, up to
    the closing one. *)
Fixpoint string_body (s : string) : option (string * string) :=
  match s with
  | EmptyString => None
  | String c r =>
      if Ascii.eqb c quote_char then Some (EmptyString, r)
      else if Ascii.eqb c "\" then
        match r with
        | String e r' =>
            let keep (x : ascii) (rest : string) :=
              match string_body rest with
              | Some (body, tl) => Some (String x body, tl)
              | None => None
              end in
            if Ascii.eqb e quote_char then keep quote_char r'
            else if Ascii.eqb e "\" then keep "\"%char r'
            else if Ascii.eqb e "/" then keep "/"%char r'
            else if Ascii.eqb e "b" then keep (ascii_of_nat 8) r'
            else if Ascii.eqb e "f" then keep (ascii_of_nat 12) r'
            else if Ascii.eqb e "n" then keep (ascii_of_nat 10) r'
            else if Ascii.eqb e "r" then keep (ascii_of_nat 13) r'
            else if Ascii.eqb e "t" then keep (ascii_of_nat 9) r'
            else if Ascii.eqb e "u" then
              match r' with
              | String "0" (String "0" (String a (String b r''))) =>
                  match hex a, hex b with
                  | Some x, Some y => keep (ascii_of_N (x * 16 + y)) r''
                  | _, _ => None
                  end
              | _ => None
              end
            else None
        | EmptyString => None
        end
      else if (N_of_ascii c <? 32)%N then None
      else match string_body r with
           | Some (body, tl) => Some (String c body, tl)
           | None => None
           end
  end.

Fixpoint take_digits (s : string) : string * string :=
  match s with
  | String c r =>
      match digit c with
      | Some _ => let '(d, tl) := take_digits r in (String c d, tl)
      | None => (EmptyString, s)
      end
  | EmptyString => (EmptyString, EmptyString)
  end.

Definition starts_fraction (s : string) : bool :=
  match s with
  | String c _ => Ascii.eqb c "." || Ascii.eqb c "e" || Ascii.eqb c "E"
  | EmptyString => false
  end.

(** An integer literal, spelt back the way a number prints. *)
Definition number (s : string) : option (string * string) :=
  let '(neg, s') :=
    match s with
    | String "-" r => (true, r)
    | _ => (false, s)
    end in
  let '(d, tl) := take_digits s' in
  match d with
  | EmptyString => None
  | String "0" (String _ _) => None
  | _ =>
      if starts_fraction tl || (15 <? String.length d)%nat then None
      else if String.eqb d "0" then Some ("0", tl)
      else Some (if neg then String "-" d else d, tl)
  end.

Fixpoint value (fuel : nat) (s : string) : option (json * string) :=
  match fuel with
  | O => None
  | S f =>
      match skip_ws s with
      | String "{" r =>
          match skip_ws r with
          | String "}" r' => Some (JObj [], r')
          | _ => members f [] r
          end
      | String "[" r =>
          match skip_ws r with
          | String "]" r' => Some (JArr [], r')
          | _ => elements f [] r
          end
      | String c r as s' =>
          if Ascii.eqb c quote_char then
            match string_body r with
            | Some (body, tl) => Some (JStr body, tl)
            | None => None
            end
          else
            match Str.strip_prefix "true" s', Str.strip_prefix "false" s',
                  Str.strip_prefix "null" s' with
            | Some tl, _, _ => Some (JBool true, tl)
            | _, Some tl, _ => Some (JBool false, tl)
            | _, _, Some tl => Some (JNull, tl)
            | None, None, None =>
                match number s' with
                | Some (lit, tl) => Some (JNum lit, tl)
                | None => None
                end
            end
      | EmptyString => None
      end
  end
with members (fuel : nat) (acc : list (string * json)) (s : string)
  : option (json * string) :=
  match fuel with
  | O => None
  | S f =>
      match skip_ws s with
      | String c r =>
          if Ascii.eqb c quote_char then
            match string_body r with
            | Some (k, r1) =>
                match skip_ws r1 with
                | String ":" r2 =>
                    match value f r2 with
                    | Some (v, r3) =>
                        match skip_ws r3 with
                        | String "," r4 => members f (define k v acc) r4
                        | String "}" r4 => Some (JObj (define k v acc), r4)
                        | _ => None
                        end
                    | None => None
                    end
                | _ => None
                end
            | None => None
            end
          else None
      | EmptyString => None
      end
  end
with elements (fuel : nat) (acc : list json) (s : string)
  : option (json * string) :=
  match fuel with
  | O => None
  | S f =>
      match value f s with
      | Some (v, r) =>
          match skip_ws r with
          | String "," r' => elements f (acc ++ [v])%list r'
          | String "]" r' => Some (JArr (acc ++ [v])%list, r')
          | _ => None
          end
      | None => None
      end
  end.

Definition parse (text : string) : string + json :=
  match value (S (String.length text)) text with
  | Some (v, rest) =>
      match skip_ws rest with
      | EmptyString => inr v
      | _ => inl "Unexpected token in JSON"
      end
  | None => inl "Unexpected token in JSON"
  end.

Definition hex_digit (n : N) : ascii :=
  if (n <? 10)%N then ascii_of_N (48 + n) else ascii_of_N (87 + n).

(** QuoteJSONString *)
Fixpoint quote_body (s : string) : string :=
  match s with
  | EmptyString => EmptyString
  | String c r =>
      let n := N_of_ascii c in
      (if Ascii.eqb c quote_char then String "\" (String quote_char EmptyString)
       else if Ascii.eqb c "\" then "\\"
       else if (n =? 8)%N then "\b"
       else if (n =? 9)%N then "\t"
       else if (n =? 10)%N then "\n"
       else if (n =? 12)%N then "\f"
       else if (n =? 13)%N then "\r"
       else if (n <? 32)%N then
         "\u00" ++ String (hex_digit (n / 16)) (String (hex_digit (n mod 16)) EmptyString)
       else String c EmptyString)
      ++ quote_body r
  end.

Definition quote (s : string) : string :=
  String quote_char (quote_body s ++ String quote_char EmptyString).

Definition newline : string := String (ascii_of_nat 10) EmptyString.

(** [JSON.stringify(v, null, 2)] below the indentation [indent]. *)
Fixpoint stringify_at (indent : string) (v : json) : string :=
  let inner := (indent ++ "  ")%string in
  match v with
  | JNull => "null"
  | JBool true => "true"
  | JBool false => "false"
  | JNum lit => lit
  | JStr s => quote s
  | JArr [] => "[]"
  | JArr elems =>
      "[" ++ newline
      ++ String.concat ("," ++ newline)
           (map (fun x => inner ++ stringify_at inner x) elems)
      ++ newline ++ indent ++ "]"
  | JObj [] => "{}"
  | JObj props =>
      "{" ++ newline
      ++ String.concat ("," ++ newline)
           (map (fun kv => inner ++ quote (fst kv) ++ ": "
                           ++ stringify_at inner (snd kv)) props)
      ++ newline ++ indent ++ "}"
  end.

Definition stringify (v : json) : string := stringify_at EmptyString v.

End JsonText.

(** ** A concrete host

    A Linux machine with a handful of files, to run the installer on.
    [join] and [dirname] agree with [path.join] and [path.dirname] on the
    arguments met here: absolute, normalised paths joined with relative
    ones. *)

Module Sample.

Local Open Scope string_scope.

Definition enoent (path : string) : js_error :=
  {| err_code := Some "ENOENT";
     err_message := "ENOENT: no such file or directory, open '" ++ path ++ "'" |}.

Definition eacces (path : string) : js_error :=
  {| err_code := Some "EACCES";
     err_message := "EACCES: permission denied, open '" ++ path ++ "'" |}.

Definition join (a b : string) : string := a ++ "/" ++ b.

Definition dirname (p : string) : string :=
  String.concat "/" (removelast (Str.split "/" p)).

Fixpoint lookup_file (files : list (string * string)) (path : string)
  : js_error + string :=
  match files with
  | [] => inl (enoent path)
  | (p, content) :: rest =>
      if String.eqb p path then inr content else lookup_file rest path
  end.

(** The machine: its files, and the paths it refuses to write. *)
Definition linux (files : list (string * string)) (readonly : string -> bool)
  : host :=
  {| rootDir := "/opt/deploy";
     platform := "linux";
     homedir := "/home/ada";
     env_APPDATA := None;
     env_DEBUG := None;
     now := 1730000000000;
     path_join := join;
     path_dirname := dirname;
     readFile := lookup_file files;
     mkdir_p := fun _ => None;
     writeFile := fun path _ => if readonly path then Some (eacces path) else None |}.

Definition env_path : string := "/opt/deploy/.env".
Definition template_path : string :=
  "/opt/deploy/config/claudeDesktopConfig.template.json".
Definition target_path : string :=
  "/home/ada/.config/Claude/claude_desktop_config.json".

Definition template : string :=
  Str.dq "{'mcpServers':{'orchestrator':{'command':'node','args':['{{ORCHESTRATOR_PATH}}/dist/index.js'],'env':{'DEBUG':'{{DEBUG}}'}}}}".

(** A target that already lists one server, written without spaces. *)
Definition existing : string :=
  Str.dq "{'theme':'dark','mcpServers':{'files':{'command':'fs-server'}}}".

Definition nothing_readonly (path : string) : bool := false.
Definition backups_readonly (path : string) : bool :=
  Str.occurs ".backup." path.

Definition run (files : list (string * string)) (readonly : string -> bool)
  : list event * ending :=
  install JsonText.parse JsonText.stringify (linux files readonly).

End Sample.

(** ** Reading a trace *)

(** The calls of [fs.writeFile] in a trace: path, content, and whether the
    file system accepted the write. *)
Fixpoint writes (t : list event) : list (string * string * bool) :=
  match t with
  | [] => []
  | EvWrite path content ok :: r => (path, content, ok) :: writes r
  | _ :: r => writes r
  end.

(** The writes of a trace to paths other than [target]. *)
Definition writes_beside (target : string) (t : list event)
  : list (string * string * bool) :=
  List.filter (fun w => negb (String.eqb (fst (fst w)) target)) (writes t).

(** The writes of a trace to [target]. *)
Definition writes_to (target : string) (t : list event)
  : list (string * string * bool) :=
  List.filter (fun w => String.eqb (fst (fst w)) target) (writes t).

(** The properties a spread element contributes. *)
Definition spread_source (src : option json) : list (string * json) :=
  match src with
  | Some v => own_props v
  | None => []
  end.

(** The provider entries of a document: the own properties of its
    [mcpServers] value, none if there is no such value. *)
Definition providers (doc : json) : list (string * json) :=
  match doc with
  | JObj props =>
      match assoc "mcpServers" props with
      | Some v => own_props v
      | None => []
      end
  | _ => []
  end.

(** The entry a document has for a provider name. *)
Definition provider (doc : json) (name : string) : option json :=
  assoc name (providers doc).

(** The eight placeholder tokens. *)
Definition tokens : list string :=
  [ "{{ORCHESTRATOR_PATH}}"; "{{HUBSPOT_PROJECT_PATH}}";
    "{{SHAREPOINT_PROJECT_PATH}}"; "{{ASANA_PROJECT_PATH}}";
    "{{HUBSPOT_MCP_URL}}"; "{{SHAREPOINT_MCP_URL}}"; "{{ASANA_MCP_URL}}";
    "{{DEBUG}}" ].

(** The parameter source keys that have a built-in default. *)
Definition defaulted_keys : list string :=
  [ "INSTALL_DIR"; "HUBSPOT_PROJECT_PATH"; "SHAREPOINT_PROJECT_PATH";
    "ASANA_PROJECT_PATH"; "HUBSPOT_MCP_URL"; "SHAREPOINT_MCP_URL";
    "ASANA_MCP_URL"; "DEBUG" ].

(** Whether the file system accepts a write. *)
Definition accepted (h : host) (path content : string) : bool :=
  match writeFile h path content with
  | None => true
  | Some _ => false
  end.

(** The calls of [fs.mkdir] and [fs.writeFile] in a trace: everything a
    run does to the file system. *)
Definition touches_disk (ev : event) : bool :=
  match ev with
  | EvMkdir _ _ | EvWrite _ _ _ => true
  | EvPrint _ | EvLog _ _ | EvStack _ => false
  end.

Definition disk_events (t : list event) : list event :=
  List.filter touches_disk t.

(** A text without a line feed. *)
Definition one_line (l : string) : bool :=
  negb (Str.occurs (String "010" EmptyString) l).

(** The file whose lines are [ls]: the lines, with a line feed between
    one and the next. *)
Definition lines_of (ls : list string) : string :=
  String.concat (String "010" EmptyString) ls.

(** Every backslash twice, every other character once. *)
Fixpoint double_backslashes (s : string) : string :=
  match s with
  | EmptyString => EmptyString
  | String c r =>
      if Ascii.eqb c "\" then String "\" (String "\" (double_backslashes r))
      else String c (double_backslashes r)
  end.

(** A character that may stand for itself in a JSON string, or a
    backslash. *)
Definition path_char (c : ascii) : bool :=
  negb (Ascii.eqb c JsonText.quote_char) && (32 <=? N_of_ascii c)%N.

Fixpoint path_text (s : string) : bool :=
  match s with
  | EmptyString => true
  | String c r => path_char c && path_text r
  end.

(** [tok] and [y] agree as far as both go: an occurrence of [tok] may
    start where [y] starts, whatever follows [y]. *)
Fixpoint may_start (tok y : string) : bool :=
  match tok, y with
  | String a t, String b y' => Ascii.eqb a b && may_start t y'
  | _, _ => true
  end.

(** No occurrence of [tok] starts inside [pre], whatever follows it. *)
Fixpoint inert (tok pre : string) : bool :=
  match pre with
  | EmptyString => true
  | String _ r => negb (may_start tok pre) && inert tok r
  end.

(** ** validate

    The validation script.  Its lines that start with a pictograph are
    events of their own: [RCheck] for the line of one check, [RCount] for
    a line of the summary, [RSuccess] for the closing line of a run
    without errors or warnings. *)

(** What the script asks of the machine besides reading files: whether
    [fs.access(path)] resolves, and whether [claude --version] runs. *)
Record probes : Type := Probes {
  access : string -> bool;
  claude_cli : bool
}.

Inductive verdict : Type := Pass | Warn | Fail.

Inductive report : Type :=
| RLine (text : string)
| RCheck (v : verdict) (message : string)
| RCount (v : verdict) (n : Z)
| RSuccess
| RFatal (text : string).

(** The two counters of the script. *)
Record tally : Type := Tally {
  errors : Z;
  warnings : Z
}.

Definition check (condition : bool) (message : string) (isWarning : bool)
  (c : tally) : list report * tally :=
  if negb condition then
    if isWarning then
      ([RCheck Warn message], {| errors := errors c; warnings := warnings c + 1 |})
    else
      ([RCheck Fail message], {| errors := errors c + 1; warnings := warnings c |})
  else ([RCheck Pass message], c).

(** The [if] chain of check 5: the path, [undefined] on an operating
    system it does not know, or the [TypeError] of [path.join] when
    [APPDATA] is not set. *)
Definition validate_path (h : host) : js_error + option string :=
  if String.eqb (platform h) "darwin" then
    inr (Some (path_join h (homedir h)
                 "Library/Application Support/Claude/claude_desktop_config.json"))
  else if String.eqb (platform h) "linux" then
    inr (Some (path_join h (homedir h) ".config/Claude/claude_desktop_config.json"))
  else if String.eqb (platform h) "win32" then
    match env_APPDATA h with
    | Some appdata =>
        inr (Some (path_join h appdata "Claude/claude_desktop_config.json"))
    | None =>
        inl {| err_code := Some "ERR_INVALID_ARG_TYPE";
               err_message :=
                 Str.dq "The 'path' argument must be of type string. Received undefined" |}
    end
  else inr None.

(** [servers['claude-code-orchestrator']] on a truthy value. *)
Definition orchestrator_entry (servers : json) : option json :=
  match servers with
  | JObj props => assoc "claude-code-orchestrator" props
  | JNull | JBool _ | JNum _ | JStr _ | JArr _ => None
  end.

(** [config.mcpServers && config.mcpServers['claude-code-orchestrator']],
    as the condition [check] makes of it; [None] when reading
    [config.mcpServers] throws. *)
Definition orchestrator_configured (config : json) : option bool :=
  match config with
  | JNull => None
  | JObj props =>
      match assoc "mcpServers" props with
      | Some servers =>
          if truthy (Some servers) then Some (truthy (orchestrator_entry servers))
          else Some false
      | None => Some false
      end
  | JBool _ | JNum _ | JStr _ | JArr _ => Some false
  end.

Section Validate.

Variable JSON_parse : string -> string + json.
Variable pr : probes.
Variable h : host.

(** Check 5, once the path is known. *)
Definition desktop_check (claudeConfigPath : option string) (c : tally)
  : list report * tally :=
  let unread := check false "Claude Desktop configured (run: npm run install:all)"
                  false c in
  match claudeConfigPath with
  | None => unread
  | Some path =>
      match readFile h path with
      | inl _ => unread
      | inr text =>
          match JSON_parse text with
          | inl _ => unread
          | inr config =>
              match orchestrator_configured config with
              | None => unread
              | Some condition =>
                  check condition "Claude Desktop configured with orchestrator"
                    false c
              end
          end
      end
  end.

(** Checks 1 to 4. *)
Definition first_checks : list report * tally :=
  let c0 := {| errors := 0; warnings := 0 |} in
  let '(t1, c1) :=
    if access pr (path_join h (rootDir h) ".env")
    then check true ".env file exists" false c0
    else check false ".env file exists (copy from .env.example)" true c0 in
  let '(t2, c2) :=
    if access pr (path_join h (rootDir h) "node_modules")
    then check true "Dependencies installed" false c1
    else check false "Dependencies installed (run: npm install)" false c1 in
  let '(t3, c3) :=
    if access pr (path_join h (rootDir h)
                    "node_modules/@magicturtle/claude-orchestrator")
    then check true "Orchestrator package installed" false c2
    else check false "Orchestrator package installed" false c2 in
  let '(t4, c4) :=
    if claude_cli pr
    then check true "Claude Code CLI available" false c3
    else check false
           "Claude Code CLI available (install: npm i -g @anthropic-ai/claude-code)"
           true c3 in
  (t1 ++ t2 ++ t3 ++ t4, c4).

(** The summary, and how the script ends. *)
Definition closing (c : tally) : list report * ending :=
  let head :=
    [RLine "
========================================";
     RLine "Validation Summary";
     RLine "========================================";
     RCount Pass (5 - errors c - warnings c)]
    ++ (if (0 <? warnings c)%Z then [RCount Warn (warnings c)] else [])
    ++ (if (0 <? errors c)%Z then [RCount Fail (errors c)] else [])
    ++ [RLine ""] in
  if (0 <? errors c)%Z then
    (head ++ [RLine "[ACTION REQUIRED] Fix errors above before using.
"], Exited 1)
  else if (0 <? warnings c)%Z then
    (head ++ [RLine "[RECOMMENDED] Address warnings for best experience.
"], Completed)
  else (head ++ [RSuccess], Completed).

(** One run of the script: [validate()] and the handler of its
    rejection. *)
Definition validate : list report * ending :=
  let banner :=
    [RLine "
========================================";
     RLine "Claude Client Deployment - Validation";
     RLine "========================================
"] in
  let '(t4, c4) := first_checks in
  match validate_path h with
  | inl err =>
      (banner ++ t4 ++ [RFatal ("[ERROR] Validation failed: " ++ err_message err)],
       Exited 1)
  | inr claudeConfigPath =>
      let '(t5, c5) := desktop_check claudeConfigPath c4 in
      let '(t6, e) := closing c5 in
      (banner ++ t4 ++ t5 ++ t6, e)
  end.

End Validate.

(** The verdicts of the checks of a report, in order. *)
Fixpoint verdicts (t : list report) : list verdict :=
  match t with
  | [] => []
  | RCheck v _ :: r => v :: verdicts r
  | _ :: r => verdicts r
  end.

Definition is_verdict (v w : verdict) : bool :=
  match v, w with
  | Pass, Pass | Warn, Warn | Fail, Fail => true
  | _, _ => false
  end.

(** How many checks came out as [v]. *)
Definition tally_of (v : verdict) (t : list report) : Z :=
  Z.of_nat (length (List.filter (is_verdict v) (verdicts t))).

(** The content of a file after some writes: that of the last write to
    it that was accepted. *)
Fixpoint written (ws : list (string * string * bool)) (path : string)
  : option string :=
  match ws with
  | [] => None
  | (p, content, ok) :: rest =>
      match written rest path with
      | Some later => Some later
      | None => if ok && String.eqb p path then Some content else None
      end
  end.

(** The machine once the writes of a run have been made. *)
Definition after_writes (h : host) (ws : list (string * string * bool)) : host :=
  {| rootDir := rootDir h;
     platform := platform h;
     homedir := homedir h;
     env_APPDATA := env_APPDATA h;
     env_DEBUG := env_DEBUG h;
     now := now h;
     path_join := path_join h;
     path_dirname := path_dirname h;
     readFile := fun path =>
                   match written ws path with
                   | Some content => inr content
                   | None => readFile h path
                   end;
     mkdir_p := mkdir_p h;
     writeFile := writeFile h |}.

(** ** update

    The update script: three commands, each run with [execSync], which
    throws when the command fails. *)

Inductive update_event : Type :=
| UPrint (line : string)
| UExec (command : string)
| UError (line : string).

Definition update (execSync : string -> option js_error)
  : list update_event * ending :=
  let banner :=
    [UPrint "
========================================";
     UPrint "Updating Claude Client Deployment";
     UPrint "========================================
"] in
  let failed (t : list update_event) (err : js_error) :=
    (banner ++ t ++ [UError ("[ERROR] Update failed: " ++ err_message err)],
     Exited 1) in
  let t1 := [UPrint "[INFO] Checking for package updates..."; UExec "npm outdated"] in
  match execSync "npm outdated" with
  | Some err => failed t1 err
  | None =>
      let t2 := t1 ++ [UPrint "
[INFO] Running npm update..."; UExec "npm update"] in
      match execSync "npm update" with
      | Some err => failed t2 err
      | None =>
          let t3 := t2 ++ [UPrint "
[INFO] Reconfiguring Claude Desktop..."; UExec "node deploy/install.js"] in
          match execSync "node deploy/install.js" with
          | Some err => failed t3 err
          | None =>
              (banner ++ t3
               ++ [UPrint "
[SUCCESS] Update complete!";
                   UPrint "[INFO] Restart Claude Desktop to apply changes.
"],
               Completed)
          end
      end
  end.

(** The commands a run of the update script has started, in order. *)
Fixpoint commands (t : list update_event) : list string :=
  match t with
  | [] => []
  | UExec c :: r => c :: commands r
  | _ :: r => commands r
  end.

(** ** Templates

    A template seen as the texts between its placeholders. *)

(** The template made of [pieces], each a text and the token of the
    placeholder that follows it, and of the text [last] after the last
    placeholder. *)
Fixpoint template_of (pieces : list (string * string)) (last : string) : string :=
  match pieces with
  | [] => last
  | (text, tok) :: rest => (text ++ tok ++ template_of rest last)%string
  end.

(** The value the chain of replacements has for a token; a token that
    is not in the chain stands for itself. *)
Fixpoint chain_value (subs : list (string * string)) (tok : string) : string :=
  match subs with
  | [] => tok
  | (tok', value) :: rest =>
      if String.eqb tok tok' then value else chain_value rest tok
  end.

(** The same pieces with each token replaced by its value. *)
Fixpoint filled (p : params) (pieces : list (string * string)) (last : string)
  : string :=
  match pieces with
  | [] => last
  | (text, tok) :: rest =>
      (text ++ chain_value (substitutions p) tok ++ filled p rest last)%string
  end.

(** * Properties *)

(** ** Objects *)

Lemma assoc_replace_first (k k' : string) (v : json) (o : list (string * json)) :
  assoc k' (replace_first k v o) =
  if String.eqb k' k then (match assoc k o with Some _ => Some v | None => None end)
  else assoc k' o.
Proof.
  induction o as [|[k0 v0] o IH]; simpl.
  - destruct (String.eqb k' k); reflexivity.
  - destruct (String.eqb_spec k k0) as [->|Hk]; simpl.
    + destruct (String.eqb_spec k' k0); reflexivity.
    + rewrite IH. destruct (String.eqb_spec k' k) as [->|Hk'].
      * apply String.eqb_neq in Hk. rewrite Hk. reflexivity.
      * reflexivity.
Qed.

Lemma assoc_insert_index (i : N) (k k' : string) (v : json)
  (o : list (string * json)) :
  assoc k o = None ->
  assoc k' (insert_index i k v o) =
  if String.eqb k' k then Some v else assoc k' o.
Proof.
  induction o as [|[k0 v0] o IH]; simpl; intros Hnone.
  - reflexivity.
  - destruct (String.eqb_spec k k0) as [->|Hk]; [discriminate|].
    destruct (array_index k0) as [j|]; [destruct (j <? i)%N|]; simpl;
      try reflexivity.
    rewrite (IH Hnone).
    destruct (String.eqb_spec k' k0) as [->|Hk0]; [|reflexivity].
    apply not_eq_sym, String.eqb_neq in Hk. rewrite Hk. reflexivity.
Qed.

Lemma assoc_app (k : string) (o o' : list (string * json)) :
  assoc k (o ++ o') = match assoc k o with Some x => Some x | None => assoc k o' end.
Proof.
  induction o as [|[k0 v0] o IH]; simpl; [reflexivity|].
  destruct (String.eqb k k0); [reflexivity|apply IH].
Qed.

(** Reading a property back after it has been defined. *)
Lemma assoc_define (k k' : string) (v : json) (o : list (string * json)) :
  assoc k' (define k v o) = if String.eqb k' k then Some v else assoc k' o.
Proof.
  unfold define. destruct (assoc k o) as [x|] eqn:Hk.
  - rewrite assoc_replace_first, Hk. reflexivity.
  - destruct (array_index k) as [i|].
    + apply assoc_insert_index, Hk.
    + rewrite assoc_app. simpl.
      destruct (String.eqb_spec k' k) as [->|Hne].
      * rewrite Hk. reflexivity.
      * destruct (assoc k' o); reflexivity.
Qed.

Lemma assoc_in_keys (k : string) (o : list (string * json)) :
  In k (map fst o) <-> assoc k o <> None.
Proof.
  induction o as [|[k0 v0] o IH]; simpl.
  - split; [tauto|congruence].
  - destruct (String.eqb_spec k k0) as [->|Hne].
    + split; [discriminate|auto].
    + rewrite <- IH. split; [intros [H|H]; congruence|auto].
Qed.

Lemma assoc_copy (k : string) (P : list (string * json)) (ks : list string) :
  forall t,
    assoc k
      (fold_left (fun t k0 => match assoc k0 P with
                              | Some x => define k0 x t
                              | None => t
                              end) ks t) =
    if existsb (String.eqb k) ks
    then match assoc k P with Some x => Some x | None => assoc k t end
    else assoc k t.
Proof.
  induction ks as [|k0 ks IH]; intros t; simpl; [reflexivity|].
  rewrite IH. destruct (String.eqb_spec k k0) as [->|Hne]; simpl.
  - destruct (assoc k0 P) as [x|] eqn:HP.
    + rewrite assoc_define, String.eqb_refl. destruct (existsb _ ks); reflexivity.
    + destruct (existsb _ ks); reflexivity.
  - destruct (assoc k0 P) as [x0|] eqn:HP0; [|reflexivity].
    rewrite assoc_define. apply String.eqb_neq in Hne. rewrite Hne. reflexivity.
Qed.

Lemma existsb_keys (k : string) (P : list (string * json)) (x : json) :
  assoc k P = Some x -> existsb (String.eqb k) (map fst P) = true.
Proof.
  induction P as [|[k0 v0] P IH]; simpl; [discriminate|].
  destruct (String.eqb k k0); [reflexivity|exact IH].
Qed.

(** A spread element defines each property of its source and leaves the
    others as they were. *)
Lemma assoc_spread (k : string) (t : list (string * json)) (src : option json) :
  assoc k (spread t src) =
  match assoc k (spread_source src) with
  | Some x => Some x
  | None => assoc k t
  end.
Proof.
  assert (Hgen : forall v, assoc k
            (fold_left (fun t k0 => match get_own v k0 with
                                    | Some x => define k0 x t
                                    | None => t
                                    end) (keys v) t) =
          match assoc k (own_props v) with Some x => Some x | None => assoc k t end).
  { intros v. unfold get_own, keys. rewrite assoc_copy.
    destruct (assoc k (own_props v)) as [x|] eqn:Hk.
    - rewrite (existsb_keys _ _ _ Hk). reflexivity.
    - destruct (existsb _ _); reflexivity. }
  destruct src as [v|]; simpl; [|reflexivity].
  destruct v; try apply Hgen; reflexivity.
Qed.

Lemma assoc_spread2 (k : string) (a b : option json) :
  get_own (spread2 a b) k =
  match assoc k (spread_source b) with
  | Some x => Some x
  | None => assoc k (spread_source a)
  end.
Proof.
  unfold get_own, spread2. simpl. rewrite !assoc_spread. simpl.
  destruct (assoc k (spread_source a)); reflexivity.
Qed.

Lemma keys_spread2 (k : string) (a b : option json) :
  In k (keys (spread2 a b)) <->
  In k (map fst (spread_source a)) \/ In k (map fst (spread_source b)).
Proof.
  unfold keys. rewrite !assoc_in_keys.
  change (assoc k (own_props (spread2 a b))) with (get_own (spread2 a b) k).
  rewrite assoc_spread2.
  destruct (assoc k (spread_source b)), (assoc k (spread_source a));
    split; try tauto; try (intros _; first [left; discriminate | right; discriminate]);
    intros [H|H]; congruence.
Qed.

(** What [get_mcpServers] reads is the value the provider entries of the
    document are taken from. *)
Lemma get_mcpServers_providers (doc : json) (t : list event) (v : option json) :
  get_mcpServers doc = (t, inr v) ->
  t = [] /\ providers doc = spread_source v.
Proof.
  destruct doc; simpl; intros H; inversion H; subst; split; try reflexivity.
Qed.

(** ** Traces *)

Lemma writes_app (t1 t2 : list event) : writes (t1 ++ t2) = writes t1 ++ writes t2.
Proof.
  induction t1 as [|ev t1 IH]; simpl; [reflexivity|].
  destruct ev; simpl; rewrite ?IH; reflexivity.
Qed.

Lemma fst_bind {A B} (m : io A) (k : A -> io B) :
  fst (bind m k) =
  fst m ++ match snd m with inr a => fst (k a) | inl _ => [] end.
Proof.
  destruct m as [t [e|a]]; simpl; [rewrite app_nil_r; reflexivity|].
  destruct (k a); reflexivity.
Qed.

Lemma snd_bind {A B} (m : io A) (k : A -> io B) :
  snd (bind m k) = match snd m with inr a => snd (k a) | inl e => inl e end.
Proof.
  destruct m as [t [e|a]]; simpl; [reflexivity|].
  destruct (k a); reflexivity.
Qed.

Lemma writes_bind {A B} (m : io A) (k : A -> io B) :
  writes (fst (bind m k)) =
  writes (fst m) ++ match snd m with inr a => writes (fst (k a)) | inl _ => [] end.
Proof.
  rewrite fst_bind, writes_app. destruct (snd m); reflexivity.
Qed.

Lemma app_eq_self (s t : string) : (s ++ t)%string = s -> t = EmptyString.
Proof.
  induction s as [|c s IH]; simpl; intros H; [exact H|].
  inversion H. auto.
Qed.

(** A backup never has the name of the target. *)
Lemma backup_path_fresh (h : host) (path : string) :
  String.eqb (backup_path h path) path = false.
Proof.
  apply String.eqb_neq. unfold backup_path. intros H.
  apply app_eq_self in H. discriminate.
Qed.

(** ** The stages of a run *)


Section Stages.

Variable JSON_parse : string -> string + json.
Variable JSON_stringify : json -> string.
Variable h : host.

Lemma loadEnv_writes : writes (fst (loadEnv h)) = [].
Proof.
  unfold loadEnv, fs_readFile.
  destruct (readFile h _) as [e|content]; simpl; [|reflexivity].
  destruct (decide _); reflexivity.
Qed.

Lemma generate_writes : writes (fst (generate JSON_parse h)) = [].
Proof.
  unfold generate. rewrite !writes_bind, loadEnv_writes. simpl.
  destruct (snd (loadEnv h)) as [e|env]; [reflexivity|].
  rewrite ?writes_bind. simpl. unfold fs_readFile, json_parse.
  destruct (readFile h _) as [e|template]; simpl; [reflexivity|].
  destruct (JSON_parse _); reflexivity.
Qed.

Lemma getClaudeConfigPath_trace : fst (getClaudeConfigPath h) = [].
Proof.
  unfold getClaudeConfigPath.
  repeat match goal with |- context [if ?b then _ else _] => destruct b end;
    try reflexivity.
  destruct (env_APPDATA h); reflexivity.
Qed.

Lemma read_existing_trace (path : string) :
  fst (read_existing JSON_parse h path) = [].
Proof.
  unfold read_existing, fs_readFile, json_parse.
  destruct (readFile h path) as [e|text]; simpl.
  - destruct (decide _); reflexivity.
  - destruct (JSON_parse text); reflexivity.
Qed.

Lemma summary_ok (path : string) :
  writes (fst (summary h path)) = [] /\ snd (summary h path) = inr tt.
Proof. split; reflexivity. Qed.

Lemma install_failed_writes (e : js_error) :
  writes (fst (install_failed h e)) = [].
Proof. unfold install_failed. simpl. destruct (decide _); reflexivity. Qed.

Lemma install_writes :
  writes (fst (install JSON_parse JSON_stringify h)) =
  writes (fst (install_body JSON_parse JSON_stringify h)).
Proof.
  unfold install.
  destruct (install_body JSON_parse JSON_stringify h) as [t [e|[]]] eqn:Hb.
  all: cbn -[install_failed]; rewrite ?writes_app, ?install_failed_writes,
         ?app_nil_r; reflexivity.
Qed.

Lemma install_ending :
  snd (install JSON_parse JSON_stringify h) =
  match snd (install_body JSON_parse JSON_stringify h) with
  | inr _ => Completed
  | inl _ => Exited 1
  end.
Proof.
  unfold install.
  destruct (install_body JSON_parse JSON_stringify h) as [t [e|[]]]; reflexivity.
Qed.

(** The log of a failed run ends with the message of what was thrown. *)
Lemma install_reports (e : js_error) :
  snd (install_body JSON_parse JSON_stringify h) = inl e ->
  In (EvLog Error ("Installation failed: " ++ err_message e))
     (fst (install JSON_parse JSON_stringify h)).
Proof.
  unfold install.
  destruct (install_body JSON_parse JSON_stringify h) as [t [e'|[]]];
    simpl; intros H; inversion H; subst.
  do 3 right. apply in_or_app. right.
  unfold install_failed. rewrite fst_bind. simpl. left. reflexivity.
Qed.

Lemma install_body_writes :
  writes (fst (install_body JSON_parse JSON_stringify h)) =
  match snd (generate JSON_parse h), snd (getClaudeConfigPath h) with
  | inr g, inr path =>
      writes (fst (update_target JSON_parse JSON_stringify h g path))
  | _, _ => []
  end.
Proof.
  unfold install_body. rewrite writes_bind, generate_writes. simpl.
  destruct (snd (generate JSON_parse h)) as [e|g]; [reflexivity|].
  rewrite writes_bind, getClaudeConfigPath_trace. simpl.
  destruct (snd (getClaudeConfigPath h)) as [e|path]; [reflexivity|].
  rewrite writes_bind. destruct (snd (update_target _ _ _ _ _)); simpl;
    rewrite ?app_nil_r; reflexivity.
Qed.

Lemma install_body_result :
  snd (install_body JSON_parse JSON_stringify h) =
  match snd (generate JSON_parse h) with
  | inl e => inl e
  | inr g =>
      match snd (getClaudeConfigPath h) with
      | inl e => inl e
      | inr path =>
          match snd (update_target JSON_parse JSON_stringify h g path) with
          | inl e => inl e
          | inr _ => inr tt
          end
      end
  end.
Proof.
  unfold install_body. rewrite snd_bind.
  destruct (snd (generate JSON_parse h)) as [e|g]; [reflexivity|].
  rewrite snd_bind.
  destruct (snd (getClaudeConfigPath h)) as [e|path]; [reflexivity|].
  rewrite snd_bind. destruct (snd (update_target _ _ _ _ _)); reflexivity.
Qed.

(** Step 4 in terms of its parts. *)
Lemma update_target_writes (g : json) (path : string) :
  writes (fst (update_target JSON_parse JSON_stringify h g path)) =
  match mkdir_p h (path_dirname h path), snd (read_existing JSON_parse h path) with
  | None, inr d =>
      writes (fst (backup JSON_stringify h path d))
      ++ match snd (backup JSON_stringify h path d), snd (merge d g) with
         | inr _, inr final =>
             [(path, JSON_stringify final, accepted h path (JSON_stringify final))]
         | _, _ => []
         end
  | _, _ => []
  end.
Proof.
  unfold update_target. rewrite writes_bind. simpl. rewrite writes_bind.
  unfold fs_mkdir.
  destruct (mkdir_p h _) as [e|]; simpl; [reflexivity|].
  rewrite writes_bind, read_existing_trace. simpl.
  destruct (snd (read_existing JSON_parse h path)) as [e|d]; [reflexivity|].
  rewrite writes_bind. f_equal.
  destruct (snd (backup JSON_stringify h path d)) as [e|[]]; [reflexivity|].
  rewrite writes_bind.
  assert (Hm : fst (merge d g) = []).
  { unfold merge. destruct d, g; reflexivity. }
  rewrite Hm. simpl.
  destruct (snd (merge d g)) as [e|final]; [reflexivity|].
  unfold fs_writeFile, accepted.
  destruct (writeFile h path _); reflexivity.
Qed.

Lemma update_target_result (g : json) (path : string) :
  snd (update_target JSON_parse JSON_stringify h g path) =
  match mkdir_p h (path_dirname h path) with
  | Some e => inl e
  | None =>
      match snd (read_existing JSON_parse h path) with
      | inl e => inl e
      | inr d =>
          match snd (backup JSON_stringify h path d) with
          | inl e => inl e
          | inr _ =>
              match snd (merge d g) with
              | inl e => inl e
              | inr final =>
                  match writeFile h path (JSON_stringify final) with
                  | Some e => inl e
                  | None => inr tt
                  end
              end
          end
      end
  end.
Proof.
  unfold update_target. rewrite snd_bind. simpl. rewrite snd_bind.
  unfold fs_mkdir.
  destruct (mkdir_p h _) as [e|]; simpl; [reflexivity|].
  rewrite snd_bind.
  destruct (snd (read_existing JSON_parse h path)) as [e|d]; [reflexivity|].
  rewrite snd_bind.
  destruct (snd (backup JSON_stringify h path d)) as [e|[]]; [reflexivity|].
  rewrite snd_bind.
  destruct (snd (merge d g)) as [e|final]; [reflexivity|].
  unfold fs_writeFile.
  destruct (writeFile h path _); reflexivity.
Qed.

Lemma keys_or_empty (v : option json) :
  keys (or_empty v) = map fst (spread_source v).
Proof.
  destruct v as [[| [|] | lit | s | elems | props]|]; try reflexivity.
  - unfold or_empty, truthy. destruct (String.eqb_spec lit "0"); reflexivity.
  - unfold or_empty, truthy. destruct (String.eqb_spec s ""); subst; reflexivity.
Qed.

(** The backup step: one write if the document has provider entries,
    none otherwise. *)
Lemma backup_writes (path : string) (d : json) :
  writes (fst (backup JSON_stringify h path d)) =
  match providers d with
  | [] => []
  | _ :: _ =>
      [(backup_path h path, JSON_stringify d,
        accepted h (backup_path h path) (JSON_stringify d))]
  end.
Proof.
  unfold backup.
  destruct (get_mcpServers d) as [t [e|v]] eqn:Hget.
  - destruct d; try discriminate. inversion Hget. reflexivity.
  - destruct (get_mcpServers_providers _ _ _ Hget) as [-> ->].
    simpl. rewrite keys_or_empty.
    destruct (spread_source v) as [|[k x] rest]; simpl; [reflexivity|].
    unfold fs_writeFile, accepted.
    destruct (writeFile h _ _); reflexivity.
Qed.

Lemma backup_result (path : string) (d : json) :
  snd (backup JSON_stringify h path d) =
  match snd (get_mcpServers d) with
  | inl e => inl e
  | inr _ =>
      match providers d with
      | [] => inr tt
      | _ :: _ =>
          match writeFile h (backup_path h path) (JSON_stringify d) with
          | Some e => inl e
          | None => inr tt
          end
      end
  end.
Proof.
  unfold backup.
  destruct (get_mcpServers d) as [t [e|v]] eqn:Hget.
  - reflexivity.
  - destruct (get_mcpServers_providers _ _ _ Hget) as [-> ->].
    simpl. rewrite keys_or_empty.
    destruct (spread_source v) as [|[k x] rest]; simpl; [reflexivity|].
    unfold fs_writeFile.
    destruct (writeFile h _ _); reflexivity.
Qed.

End Stages.

(** ** C1: the merge *)

(** C1.  Merging is last-writer-wins by provider name.  For a target
    document that is an object, whenever the merge goes through, the
    final document's entry for a name is the rendered document's entry if
    the rendered document has one (the whole entry), and the existing
    document's entry otherwise; the names of the final document are
    exactly the names of the one or the other. *)
Theorem merge_last_writer_wins
  (props : list (string * json)) (renderedDoc finalDoc : json) (t : list event) :
  merge (JObj props) renderedDoc = (t, inr finalDoc) ->
  (forall name,
      provider finalDoc name =
      match provider renderedDoc name with
      | Some entry => Some entry
      | None => provider (JObj props) name
      end)
  /\ (forall name,
        In name (map fst (providers finalDoc)) <->
        In name (map fst (providers (JObj props)))
        \/ In name (map fst (providers renderedDoc))).
Proof.
  unfold merge. intros H.
  destruct (get_mcpServers renderedDoc) as [tr [e|r]] eqn:Hr.
  { simpl in H. discriminate. }
  destruct (get_mcpServers_providers _ _ _ Hr) as [-> Hpr].
  simpl in H. inversion H; subst; clear H.
  assert (Hfinal : providers (JObj (define "mcpServers"
                     (spread2 (assoc "mcpServers" props) r) props)) =
                   own_props (spread2 (assoc "mcpServers" props) r)).
  { unfold providers. rewrite assoc_define. reflexivity. }
  assert (Hex : providers (JObj props) = spread_source (assoc "mcpServers" props)).
  { unfold providers, spread_source. destruct (assoc _ props); reflexivity. }
  split; intros name.
  - unfold provider. rewrite Hfinal, Hpr, Hex. apply assoc_spread2.
  - rewrite Hfinal, Hpr, Hex. apply keys_spread2.
Qed.

Lemma merge_last_writer_wins_witness :
  let existing := [("mcpServers", JObj [("x", JObj [("command", JStr "a"); ("args", JArr [])]);
                                        ("foo", JObj [("command", JStr "c")])])] in
  let rendered := JObj [("mcpServers", JObj [("x", JObj [("command", JStr "b")])])] in
  let final := JObj [("mcpServers", JObj [("x", JObj [("command", JStr "b")]);
                                          ("foo", JObj [("command", JStr "c")])])] in
  merge (JObj existing) rendered = ([], inr final)
  /\ provider final "x" = Some (JObj [("command", JStr "b")])
  /\ provider final "foo" = Some (JObj [("command", JStr "c")]).
Proof.
  intros existing rendered final.
  assert (H : merge (JObj existing) rendered = ([], inr final)) by reflexivity.
  split; [exact H|].
  destruct (merge_last_writer_wins existing rendered final [] H) as [Hlookup _].
  split; rewrite Hlookup; reflexivity.
Defined.

Lemma providers_inhabited (d : json) :
  (exists name entry, provider d name = Some entry) <-> providers d <> [].
Proof.
  unfold provider. split.
  - intros (name & entry & H) Hnil. rewrite Hnil in H. discriminate.
  - destruct (providers d) as [|[k x] rest]; [congruence|]. intros _.
    exists k, x. simpl. rewrite String.eqb_refl. reflexivity.
Qed.

Lemma providers_empty (d : json) :
  (forall name, provider d name = None) <-> providers d = [].
Proof.
  split.
  - intros H. destruct (providers d) as [|[k x] rest] eqn:Hp; [reflexivity|].
    specialize (H k). unfold provider in H. rewrite Hp in H. simpl in H.
    rewrite String.eqb_refl in H. discriminate.
  - intros H name. unfold provider. rewrite H. reflexivity.
Qed.

Lemma read_existing_result (JSON_parse : string -> string + json) (h : host)
  (path : string) (t : list event) (r : js_error + json) :
  read_existing JSON_parse h path = (t, r) ->
  t = [] /\ snd (read_existing JSON_parse h path) = r.
Proof.
  intros H. split.
  - rewrite <- (read_existing_trace JSON_parse h path), H. reflexivity.
  - rewrite H. reflexivity.
Qed.

(** The writes of a run that gets as far as the existing document [d]. *)
Lemma reached_writes
  (JSON_parse : string -> string + json) (JSON_stringify : json -> string)
  (h : host) (tg tp t0 : list event) (g d : json) (path : string) :
  generate JSON_parse h = (tg, inr g) ->
  getClaudeConfigPath h = (tp, inr path) ->
  mkdir_p h (path_dirname h path) = None ->
  read_existing JSON_parse h path = (t0, inr d) ->
  writes (fst (install JSON_parse JSON_stringify h)) =
  writes (fst (backup JSON_stringify h path d))
  ++ match snd (backup JSON_stringify h path d), snd (merge d g) with
     | inr _, inr final =>
         [(path, JSON_stringify final, accepted h path (JSON_stringify final))]
     | _, _ => []
     end.
Proof.
  intros Hgen Hpath Hmk Hread.
  destruct (read_existing_result _ _ _ _ _ Hread) as [-> Hread'].
  rewrite install_writes, install_body_writes, Hgen, Hpath. simpl.
  rewrite update_target_writes, Hmk, Hread'. reflexivity.
Qed.

(** Of these, the ones beside the target. *)
Lemma reached_writes_beside
  (JSON_parse : string -> string + json) (JSON_stringify : json -> string)
  (h : host) (tg tp t0 : list event) (g d : json) (path : string) :
  generate JSON_parse h = (tg, inr g) ->
  getClaudeConfigPath h = (tp, inr path) ->
  mkdir_p h (path_dirname h path) = None ->
  read_existing JSON_parse h path = (t0, inr d) ->
  writes_beside path (fst (install JSON_parse JSON_stringify h)) =
  match providers d with
  | [] => []
  | _ :: _ =>
      [(backup_path h path, JSON_stringify d,
        accepted h (backup_path h path) (JSON_stringify d))]
  end.
Proof.
  intros Hgen Hpath Hmk Hread.
  assert (Hfilter : forall tail : list (string * string * bool),
             (forall w, In w tail -> fst (fst w) = path) ->
             List.filter (fun w => negb (String.eqb (fst (fst w)) path)) tail = []).
  { induction tail as [|w tail IH]; simpl; intros Hall; [reflexivity|].
    rewrite (Hall w (or_introl eq_refl)), String.eqb_refl. simpl.
    apply IH. intros w' Hin. apply Hall. right. exact Hin. }
  unfold writes_beside.
  rewrite (reached_writes _ _ _ _ _ _ _ _ _ Hgen Hpath Hmk Hread).
  rewrite List.filter_app, backup_writes.
  match goal with |- _ ++ List.filter _ ?tl = _ => rewrite (Hfilter tl) end.
  - rewrite app_nil_r. destruct (providers d); simpl; [reflexivity|].
    rewrite backup_path_fresh. reflexivity.
  - intros w. destruct (snd (backup _ _ _ _)), (snd (merge d g)); simpl;
      try tauto. intros [<-|[]]. reflexivity.
Qed.

(** ** C2: when a backup is written *)

(** C2.  In a run that gets as far as the existing target document, the
    writes beside the target are exactly one, to
    [<target>.backup.<Date.now()>], when the document has at least one
    provider entry, and none when it has no entry; a missing target
    stands for the shell document, which has no entry; and a target that
    is missing, or an object without provider entries, is still written
    (the only write of the run). *)
Theorem backup_iff_providers
  (JSON_parse : string -> string + json) (JSON_stringify : json -> string)
  (h : host) (tg tp t0 : list event) (g d : json) (path : string) :
  generate JSON_parse h = (tg, inr g) ->
  getClaudeConfigPath h = (tp, inr path) ->
  mkdir_p h (path_dirname h path) = None ->
  read_existing JSON_parse h path = (t0, inr d) ->
  let t := fst (install JSON_parse JSON_stringify h) in
  let backupPath := (path ++ ".backup." ++ Str.of_N (now h))%string in
  ((exists name entry, provider d name = Some entry) <->
   writes_beside path t =
   [(backupPath, JSON_stringify d, accepted h backupPath (JSON_stringify d))])
  /\ ((forall name, provider d name = None) <-> writes_beside path t = [])
  /\ (forall e,
         readFile h path = inl e ->
         d = JObj [("mcpServers", JObj [])] /\ writes_beside path t = [])
  /\ (forall props,
         d = JObj props -> (forall name, provider d name = None) -> g <> JNull ->
         exists final,
           snd (merge d g) = inr final
           /\ writes t =
              [(path, JSON_stringify final, accepted h path (JSON_stringify final))]).
Proof.
  intros Hgen Hpath Hmk Hread t backupPath.
  pose proof (reached_writes _ JSON_stringify _ _ _ _ _ _ _ Hgen Hpath Hmk Hread) as Hw.
  pose proof (reached_writes_beside _ JSON_stringify _ _ _ _ _ _ _
                Hgen Hpath Hmk Hread) as Hbeside.
  fold t in Hw, Hbeside. unfold backup_path in Hbeside. fold backupPath in Hbeside.
  split; [|split; [|split]].
  - rewrite providers_inhabited, Hbeside.
    destruct (providers d); split; congruence.
  - rewrite providers_empty, Hbeside.
    destruct (providers d); split; congruence.
  - intros e Hmissing. unfold read_existing, fs_readFile in Hread.
    rewrite Hmissing in Hread. simpl in Hread.
    destruct (decide _); inversion Hread; subst d.
    split; [reflexivity|]. rewrite Hbeside. reflexivity.
  - intros props -> Hnone Hg. apply providers_empty in Hnone.
    rewrite Hw, backup_writes, backup_result, Hnone. simpl.
    destruct g; try congruence; simpl; eexists; split; reflexivity.
Qed.

(** Steps 1 to 3 in terms of their parts. *)
Lemma generate_result (JSON_parse : string -> string + json) (h : host) :
  snd (generate JSON_parse h) =
  match snd (loadEnv h) with
  | inl e => inl e
  | inr env =>
      match readFile h (template_file h) with
      | inl e => inl e
      | inr template =>
          snd (json_parse JSON_parse (render (resolve h env) template))
      end
  end.
Proof.
  unfold generate, fs_readFile.
  destruct (loadEnv h) as [t [e|env]]; simpl; [reflexivity|].
  destruct (readFile h (template_file h)) as [e|template]; simpl; [reflexivity|].
  destruct (json_parse JSON_parse _) as [t' r]. reflexivity.
Qed.


Lemma backup_iff_providers_witness :
  let files := [(Sample.template_path, Sample.template);
                (Sample.target_path, Sample.existing)] in
  let h := Sample.linux files Sample.nothing_readonly in
  let d := JObj [("theme", JStr "dark");
                 ("mcpServers", JObj [("files", JObj [("command", JStr "fs-server")])])] in
  read_existing JsonText.parse h Sample.target_path = ([], inr d)
  /\ provider d "files" = Some (JObj [("command", JStr "fs-server")])
  /\ writes_beside Sample.target_path (fst (Sample.run files Sample.nothing_readonly)) =
     [("/home/ada/.config/Claude/claude_desktop_config.json.backup.1730000000000",
       JsonText.stringify d, true)].
Proof.
  intros files h d.
  assert (Hread : read_existing JsonText.parse h Sample.target_path = ([], inr d))
    by (vm_compute; reflexivity).
  assert (Hprov : provider d "files" = Some (JObj [("command", JStr "fs-server")]))
    by reflexivity.
  split; [exact Hread|]. split; [exact Hprov|].
  destruct (generate JsonText.parse h) as [tg [e|g]] eqn:Hgen;
    [vm_compute in Hgen; discriminate|].
  assert (Hpath : getClaudeConfigPath h = ([], inr Sample.target_path))
    by (vm_compute; reflexivity).
  assert (Hmk : mkdir_p h (path_dirname h Sample.target_path) = None)
    by reflexivity.
  destruct (backup_iff_providers JsonText.parse JsonText.stringify h tg [] [] g d
              Sample.target_path Hgen Hpath Hmk Hread) as [Hone _].
  destruct Hone as [Hone _].
  change (Sample.run files Sample.nothing_readonly)
    with (install JsonText.parse JsonText.stringify h).
  rewrite (Hone (ex_intro _ "files" (ex_intro _ _ Hprov))).
  vm_compute. reflexivity.
Defined.

(** ** C3: a backup that cannot be written *)

(** The claim of C3 fails on this run: the target lists a server, the
    backup cannot be written, and the installer stops there, with exit
    status 1 and the target left as it was. *)
Lemma backup_failure_is_fatal_example :
  let r := Sample.run [(Sample.template_path, Sample.template);
                       (Sample.target_path, Sample.existing)]
             Sample.backups_readonly in
  (exists content,
      writes (fst r) =
      [("/home/ada/.config/Claude/claude_desktop_config.json.backup.1730000000000",
        content, false)])
  /\ snd r = Exited 1
  /\ snd r <> Completed
  /\ writes_to Sample.target_path (fst r) = [].
Proof.
  intros r. split; [eexists; vm_compute; reflexivity|].
  split; [vm_compute; reflexivity|]. split; [vm_compute; discriminate|].
  vm_compute. reflexivity.
Qed.

(** C3, amended.  When the existing document has provider entries and the
    backup cannot be written, the run is over: the write of the backup is
    the only write, the error is reported as a failed installation and
    the process exits with status 1. *)
Theorem backup_failure_is_fatal
  (JSON_parse : string -> string + json) (JSON_stringify : json -> string)
  (h : host) (tg tp t0 : list event) (g d : json) (path : string) (e : js_error) :
  generate JSON_parse h = (tg, inr g) ->
  getClaudeConfigPath h = (tp, inr path) ->
  mkdir_p h (path_dirname h path) = None ->
  read_existing JSON_parse h path = (t0, inr d) ->
  (exists name entry, provider d name = Some entry) ->
  writeFile h (backup_path h path) (JSON_stringify d) = Some e ->
  let r := install JSON_parse JSON_stringify h in
  snd r = Exited 1
  /\ writes (fst r) = [(backup_path h path, JSON_stringify d, false)]
  /\ writes_to path (fst r) = []
  /\ In (EvLog Error ("Installation failed: " ++ err_message e)) (fst r).
Proof.
  intros Hgen Hpath Hmk Hread Hprov Hfail r.
  destruct (read_existing_result _ _ _ _ _ Hread) as [-> Hread'].
  apply providers_inhabited in Hprov.
  assert (Hget : exists v, snd (get_mcpServers d) = inr v).
  { destruct d; simpl; eauto. simpl in Hprov. congruence. }
  destruct Hget as [v Hget].
  assert (Hb : snd (backup JSON_stringify h path d) = inl e).
  { rewrite backup_result, Hget, Hfail. destruct (providers d); congruence. }
  assert (Hbody : snd (install_body JSON_parse JSON_stringify h) = inl e).
  { rewrite install_body_result, Hgen, Hpath. simpl.
    rewrite update_target_result, Hmk, Hread', Hb. reflexivity. }
  assert (Hw : writes (fst r) = [(backup_path h path, JSON_stringify d, false)]).
  { unfold r. rewrite install_writes, install_body_writes, Hgen, Hpath. simpl.
    rewrite update_target_writes, Hmk, Hread', Hb, backup_writes.
    unfold accepted. rewrite Hfail.
    destruct (providers d); [congruence|]. reflexivity. }
  split; [|split; [|split]].
  - unfold r. rewrite install_ending, Hbody. reflexivity.
  - exact Hw.
  - unfold writes_to. rewrite Hw. simpl. rewrite backup_path_fresh. reflexivity.
  - apply install_reports, Hbody.
Qed.

Lemma backup_failure_is_fatal_witness :
  let files := [(Sample.template_path, Sample.template);
                (Sample.target_path, Sample.existing)] in
  let h := Sample.linux files Sample.backups_readonly in
  let r := install JsonText.parse JsonText.stringify h in
  snd r = Exited 1 /\ writes_to Sample.target_path (fst r) = [].
Proof.
  intros files h r.
  destruct (generate JsonText.parse h) as [tg [e|g]] eqn:Hgen;
    [vm_compute in Hgen; discriminate|].
  destruct (read_existing JsonText.parse h Sample.target_path) as [t0 [e|d]] eqn:Hread;
    [vm_compute in Hread; discriminate|].
  assert (Hpath : getClaudeConfigPath h = ([], inr Sample.target_path))
    by (vm_compute; reflexivity).
  assert (Hmk : mkdir_p h (path_dirname h Sample.target_path) = None)
    by reflexivity.
  assert (Hprov : exists name entry, provider d name = Some entry).
  { exists "files". vm_compute in Hread. inversion Hread; subst.
    eexists. reflexivity. }
  assert (Hfail : writeFile h (backup_path h Sample.target_path)
                    (JsonText.stringify d) =
                  Some (Sample.eacces (backup_path h Sample.target_path)))
    by reflexivity.
  destruct (backup_failure_is_fatal JsonText.parse JsonText.stringify h tg [] t0 g d
              Sample.target_path _ Hgen Hpath Hmk Hread Hprov Hfail)
    as (Hend & _ & Hto & _).
  split; [exact Hend | exact Hto].
Defined.

(** ** C4: missing and corrupt documents *)

(** C4.  A missing target is read as the shell document
    [{mcpServers: {}}], without an error.  A target that is there but does
    not parse, and a rendered template that does not parse, both end the
    run with exit status 1 before any file is written. *)
Theorem corrupt_documents_are_fatal
  (JSON_parse : string -> string + json) (JSON_stringify : json -> string)
  (h : host) :
  (forall path e,
      readFile h path = inl e -> err_code e = Some "ENOENT" ->
      read_existing JSON_parse h path = ([], inr (JObj [("mcpServers", JObj [])])))
  /\ (forall tp path text msg,
         getClaudeConfigPath h = (tp, inr path) ->
         readFile h path = inr text -> JSON_parse text = inl msg ->
         read_existing JSON_parse h path = ([], inl (plain_error msg))
         /\ snd (install JSON_parse JSON_stringify h) = Exited 1
         /\ writes (fst (install JSON_parse JSON_stringify h)) = [])
  /\ (forall te env template msg,
         loadEnv h = (te, inr env) ->
         readFile h (template_file h) = inr template ->
         JSON_parse (render (resolve h env) template) = inl msg ->
         snd (install JSON_parse JSON_stringify h) = Exited 1
         /\ writes (fst (install JSON_parse JSON_stringify h)) = []
         /\ In (EvLog Error ("Installation failed: " ++ msg))
              (fst (install JSON_parse JSON_stringify h))).
Proof.
  split; [|split].
  - intros path e Hread Hcode. unfold read_existing, fs_readFile.
    rewrite Hread. simpl. destruct (decide _) as [Hne|_]; [congruence|reflexivity].
  - intros tp path text msg Hpath Hread Hparse.
    assert (Hex : read_existing JSON_parse h path = ([], inl (plain_error msg))).
    { unfold read_existing, fs_readFile, json_parse. rewrite Hread. simpl.
      rewrite Hparse. reflexivity. }
    split; [exact Hex|].
    assert (Hup : forall g,
               snd (update_target JSON_parse JSON_stringify h g path) <> inr tt
               /\ writes (fst (update_target JSON_parse JSON_stringify h g path)) = []).
    { intros g. rewrite update_target_result, update_target_writes, Hex. simpl.
      destruct (mkdir_p h _); split; congruence. }
    rewrite install_ending, install_writes, install_body_result, install_body_writes.
    rewrite Hpath. simpl.
    destruct (snd (generate JSON_parse h)) as [e|g]; [split; reflexivity|].
    destruct (Hup g) as [Hres Hw]. rewrite Hw.
    destruct (snd (update_target _ _ _ _ _)) as [e|[]]; [split; reflexivity|congruence].
  - intros te env template msg Henv Htpl Hparse.
    assert (Hgen : snd (generate JSON_parse h) = inl (plain_error msg)).
    { rewrite generate_result, Henv, Htpl. simpl. unfold json_parse.
      rewrite Hparse. reflexivity. }
    assert (Hbody : snd (install_body JSON_parse JSON_stringify h)
                    = inl (plain_error msg)).
    { rewrite install_body_result, Hgen. reflexivity. }
    split; [rewrite install_ending, Hbody; reflexivity|].
    split; [rewrite install_writes, install_body_writes, Hgen; reflexivity|].
    apply (install_reports _ _ _ _ Hbody).
Qed.

Lemma corrupt_documents_are_fatal_witness :
  read_existing JsonText.parse (Sample.linux [] Sample.nothing_readonly)
    Sample.target_path = ([], inr shell)
  /\ (let r := Sample.run [(Sample.template_path, Sample.template);
                           (Sample.target_path, "{")] Sample.nothing_readonly in
      snd r = Exited 1 /\ writes (fst r) = [])
  /\ (let r := Sample.run [(Sample.env_path, "DEBUG=yes");
                           (Sample.template_path, Str.dq "{'debug': {{DEBUG}}}")]
                 Sample.nothing_readonly in
      snd r = Exited 1 /\ writes (fst r) = []).
Proof.
  split; [|split].
  - apply (proj1 (corrupt_documents_are_fatal JsonText.parse JsonText.stringify
                    (Sample.linux [] Sample.nothing_readonly))
             Sample.target_path (Sample.enoent Sample.target_path));
      reflexivity.
  - intros r.
    destruct (proj1 (proj2 (corrupt_documents_are_fatal JsonText.parse
                              JsonText.stringify
                              (Sample.linux [(Sample.template_path, Sample.template);
                                             (Sample.target_path, "{")]
                                 Sample.nothing_readonly)))
                [] Sample.target_path "{" "Unexpected token in JSON")
      as (_ & Hend & Hw); [vm_compute; reflexivity | reflexivity | reflexivity |].
    split; [exact Hend | exact Hw].
  - intros r.
    destruct (proj2 (proj2 (corrupt_documents_are_fatal JsonText.parse
                              JsonText.stringify
                              (Sample.linux [(Sample.env_path, "DEBUG=yes");
                                             (Sample.template_path,
                                              Str.dq "{'debug': {{DEBUG}}}")]
                                 Sample.nothing_readonly)))
                [] (parse_env "DEBUG=yes") (Str.dq "{'debug': {{DEBUG}}}")
                "Unexpected token in JSON")
      as (Hend & Hw & _); [vm_compute; reflexivity | reflexivity
                          | vm_compute; reflexivity |].
    split; [exact Hend | exact Hw].
Defined.

(** ** C5: what the installer leaves alone *)

(** C5.  Every write to the target carries a document whose top-level
    entries other than [mcpServers] are those of the existing document,
    each with the value it had; a run that completes has made exactly one
    such write, and the file system accepted it. *)
Theorem other_entries_are_kept
  (JSON_parse : string -> string + json) (JSON_stringify : json -> string)
  (h : host) (tp t0 : list event) (d : json) (path : string) :
  getClaudeConfigPath h = (tp, inr path) ->
  read_existing JSON_parse h path = (t0, inr d) ->
  let r := install JSON_parse JSON_stringify h in
  (forall content ok,
      In (path, content, ok) (writes (fst r)) ->
      exists final,
        content = JSON_stringify final
        /\ forall k, k <> "mcpServers" -> get_own final k = get_own d k)
  /\ (snd r = Completed ->
      exists final,
        writes_to path (fst r) = [(path, JSON_stringify final, true)]
        /\ forall k, k <> "mcpServers" -> get_own final k = get_own d k).
Proof.
  intros Hpath Hread r.
  destruct (read_existing_result _ _ _ _ _ Hread) as [-> Hread'].
  assert (Hframe : forall g final,
             snd (merge d g) = inr final ->
             forall k, k <> "mcpServers" -> get_own final k = get_own d k).
  { intros g final Hm k Hk. unfold merge in Hm.
    destruct d, g; simpl in Hm; inversion Hm; subst; try reflexivity.
    all: unfold get_own; simpl; rewrite assoc_define;
      apply String.eqb_neq in Hk; rewrite Hk; reflexivity. }
  assert (Hbackup : forall w,
             In w (writes (fst (backup JSON_stringify h path d))) ->
             fst (fst w) = backup_path h path).
  { intros w. rewrite backup_writes.
    destruct (providers d); simpl; [tauto|]. intros [<-|[]]. reflexivity. }
  assert (Hfresh : backup_path h path <> path).
  { apply String.eqb_neq, backup_path_fresh. }
  unfold r, writes_to. rewrite install_ending, install_writes,
    install_body_result, install_body_writes, Hpath. simpl.
  destruct (snd (generate JSON_parse h)) as [e|g]; simpl.
  { split; [tauto|discriminate]. }
  rewrite update_target_result, update_target_writes, Hread'.
  destruct (mkdir_p h _) as [e|]; simpl.
  { split; [tauto|discriminate]. }
  destruct (snd (backup JSON_stringify h path d)) as [e|[]] eqn:Hb.
  { split; [|discriminate]. intros content ok Hin.
    rewrite app_nil_r in Hin. apply Hbackup in Hin. simpl in Hin. congruence. }
  destruct (snd (merge d g)) as [e|final] eqn:Hm.
  { split; [|discriminate]. intros content ok Hin.
    rewrite app_nil_r in Hin. apply Hbackup in Hin. simpl in Hin. congruence. }
  split.
  - intros content ok Hin. apply in_app_or in Hin. destruct Hin as [Hin|Hin].
    + apply Hbackup in Hin. simpl in Hin. congruence.
    + destruct Hin as [Heq|[]]. inversion Heq; subst.
      exists final. split; [reflexivity|]. apply (Hframe g final Hm).
  - unfold accepted.
    destruct (writeFile h path (JSON_stringify final)) as [e|]; [discriminate|].
    intros _. exists final. split; [|apply (Hframe g final Hm)].
    rewrite List.filter_app. simpl. rewrite String.eqb_refl.
    rewrite backup_writes.
    destruct (providers d); simpl; [reflexivity|].
    rewrite backup_path_fresh. reflexivity.
Qed.

Lemma other_entries_are_kept_witness :
  let files := [(Sample.template_path, Sample.template);
                (Sample.target_path, Sample.existing)] in
  let h := Sample.linux files Sample.nothing_readonly in
  exists final,
    writes_to Sample.target_path
      (fst (install JsonText.parse JsonText.stringify h)) =
    [(Sample.target_path, JsonText.stringify final, true)]
    /\ get_own final "theme" = Some (JStr "dark").
Proof.
  intros files h.
  destruct (read_existing JsonText.parse h Sample.target_path) as [t0 [e|d]] eqn:Hread;
    [vm_compute in Hread; discriminate|].
  assert (Hpath : getClaudeConfigPath h = ([], inr Sample.target_path))
    by (vm_compute; reflexivity).
  destruct (other_entries_are_kept JsonText.parse JsonText.stringify h [] t0 d
              Sample.target_path Hpath Hread) as [_ Hdone].
  destruct Hdone as (final & Hw & Hkeep); [vm_compute; reflexivity|].
  exists final. split; [exact Hw|].
  rewrite Hkeep; [|discriminate].
  vm_compute in Hread. inversion Hread; subst. reflexivity.
Defined.

(** ** C7: the parameter source cannot be read *)

(** C7.  When the parameter source does not exist, [loadEnv] reports one
    warning and returns no parameters, so that every value is its
    built-in default and the run goes on; when reading it fails in any
    other way, the error leaves [loadEnv] and ends the run with exit
    status 1, nothing written. *)
Theorem missing_source_falls_back
  (JSON_parse : string -> string + json) (JSON_stringify : json -> string)
  (h : host) (e : js_error) :
  readFile h (path_join h (rootDir h) ".env") = inl e ->
  (err_code e = Some "ENOENT" ->
   loadEnv h = ([EvLog Warning ".env file not found, using defaults"], inr ∅)
   /\ resolve h ∅ =
      {| installDir := homedir h;
         orchestratorPath :=
           path_join h (rootDir h) "node_modules/@magicturtle/claude-orchestrator";
         hubspotPath := path_join h (homedir h) "hubspot-mcp-railway";
         sharepointPath := path_join h (homedir h) "sharepoint-mcp-railway";
         asanaPath := path_join h (homedir h) "asana-mcp-railway";
         hubspotUrl :=
           "https://hubspot-mcp-railway-production-386b.up.railway.app/mcp";
         sharepointUrl :=
           "https://sharepoint-mcp-railway-production.up.railway.app/mcp";
         asanaUrl := "https://asana-mcp-railway-production.up.railway.app/sse";
         debug := "false" |}
   /\ (forall template,
          readFile h (template_file h) = inr template ->
          snd (generate JSON_parse h) =
          snd (json_parse JSON_parse (render (resolve h ∅) template))))
  /\ (err_code e <> Some "ENOENT" ->
      loadEnv h = ([], inl e)
      /\ snd (install JSON_parse JSON_stringify h) = Exited 1
      /\ writes (fst (install JSON_parse JSON_stringify h)) = []
      /\ In (EvLog Error ("Installation failed: " ++ err_message e))
           (fst (install JSON_parse JSON_stringify h))).
Proof.
  intros Hread.
  assert (Hload : loadEnv h =
                  if decide (err_code e = Some "ENOENT")
                  then ([EvLog Warning ".env file not found, using defaults"], inr ∅)
                  else ([], inl e)).
  { unfold loadEnv, fs_readFile. rewrite Hread. simpl.
    destruct (decide _); reflexivity. }
  split; intros Hcode;
    destruct (decide (err_code e = Some "ENOENT")) as [Heq|Hne]; try congruence.
  - split; [exact Hload|]. split; [reflexivity|].
    intros template Htpl. rewrite generate_result, Hload, Htpl. reflexivity.
  - split; [exact Hload|].
    assert (Hgen : snd (generate JSON_parse h) = inl e).
    { rewrite generate_result, Hload. reflexivity. }
    assert (Hbody : snd (install_body JSON_parse JSON_stringify h) = inl e).
    { rewrite install_body_result, Hgen. reflexivity. }
    split; [rewrite install_ending, Hbody; reflexivity|].
    split; [rewrite install_writes, install_body_writes, Hgen; reflexivity|].
    apply (install_reports _ _ _ _ Hbody).
Qed.

Lemma missing_source_falls_back_witness :
  loadEnv (Sample.linux [] Sample.nothing_readonly) =
  ([EvLog Warning ".env file not found, using defaults"], inr ∅)
  /\ debug (resolve (Sample.linux [] Sample.nothing_readonly) ∅) = "false"
  /\ hubspotPath (resolve (Sample.linux [] Sample.nothing_readonly) ∅) =
     "/home/ada/hubspot-mcp-railway".
Proof.
  destruct (missing_source_falls_back JsonText.parse JsonText.stringify
              (Sample.linux [] Sample.nothing_readonly)
              (Sample.enoent Sample.env_path) eq_refl) as [Hmissing _].
  destruct (Hmissing eq_refl) as (Hload & Hres & _).
  split; [exact Hload|]. rewrite Hres. split; reflexivity.
Defined.

(** ** C8: what a backup holds *)

(** The claim of C8 fails on this run: the target is written without
    spaces, and its backup is spread over several indented lines. *)
Lemma backup_is_not_verbatim_example :
  let r := Sample.run [(Sample.template_path, Sample.template);
                       (Sample.target_path, Sample.existing)]
             Sample.nothing_readonly in
  exists content,
    writes_beside Sample.target_path (fst r) =
    [("/home/ada/.config/Claude/claude_desktop_config.json.backup.1730000000000",
      content, true)]
    /\ content <> Sample.existing
    /\ String.length Sample.existing = 63
    /\ String.length content = 94.
Proof.
  intros r. eexists. split; [vm_compute; reflexivity|].
  split; [vm_compute; discriminate|]. split; reflexivity.
Qed.

(** C8, amended.  Whenever a backup is taken, its content is what
    [JSON.stringify(doc, null, 2)] prints for the document parsed from
    the target as it was before the merge, the whole document and not
    only its provider entries; it is not the text of the file. *)
Theorem backup_holds_parsed_document
  (JSON_parse : string -> string + json) (JSON_stringify : json -> string)
  (h : host) (tg tp : list event) (g d : json) (path text : string) :
  generate JSON_parse h = (tg, inr g) ->
  getClaudeConfigPath h = (tp, inr path) ->
  mkdir_p h (path_dirname h path) = None ->
  readFile h path = inr text ->
  JSON_parse text = inr d ->
  forall p content ok,
    In (p, content, ok) (writes_beside path (fst (install JSON_parse JSON_stringify h))) ->
    p = backup_path h path /\ content = JSON_stringify d.
Proof.
  intros Hgen Hpath Hmk Hread Hparse p content ok Hin.
  assert (Hex : read_existing JSON_parse h path = ([], inr d)).
  { unfold read_existing, fs_readFile, json_parse. rewrite Hread. simpl.
    rewrite Hparse. reflexivity. }
  rewrite (reached_writes_beside _ JSON_stringify _ _ _ _ _ _ _
             Hgen Hpath Hmk Hex) in Hin.
  destruct (providers d) as [|[k x] rest]; [destruct Hin|].
  destruct Hin as [Heq|[]]. inversion Heq. split; reflexivity.
Qed.

Lemma backup_holds_parsed_document_witness :
  let files := [(Sample.template_path, Sample.template);
                (Sample.target_path, Sample.existing)] in
  let h := Sample.linux files Sample.nothing_readonly in
  let d := JObj [("theme", JStr "dark");
                 ("mcpServers", JObj [("files", JObj [("command", JStr "fs-server")])])] in
  let content := Str.dq "{
  'theme': 'dark',
  'mcpServers': {
    'files': {
      'command': 'fs-server'
    }
  }
}" in
  JsonText.parse Sample.existing = inr d
  /\ In (backup_path h Sample.target_path, content, true)
       (writes_beside Sample.target_path
          (fst (install JsonText.parse JsonText.stringify h)))
  /\ content = JsonText.stringify d.
Proof.
  intros files h d content.
  assert (Hparse : JsonText.parse Sample.existing = inr d) by (vm_compute; reflexivity).
  assert (Hin : In (backup_path h Sample.target_path, content, true)
                  (writes_beside Sample.target_path
                     (fst (install JsonText.parse JsonText.stringify h))))
    by (vm_compute; left; reflexivity).
  split; [exact Hparse|]. split; [exact Hin|].
  destruct (generate JsonText.parse h) as [tg [e|g]] eqn:Hgen;
    [vm_compute in Hgen; discriminate|].
  assert (Hpath : getClaudeConfigPath h = ([], inr Sample.target_path))
    by (vm_compute; reflexivity).
  apply (backup_holds_parsed_document JsonText.parse JsonText.stringify h tg [] g d
           Sample.target_path Sample.existing Hgen Hpath eq_refl eq_refl Hparse
           _ _ _ Hin).
Defined.

(** ** Rendering *)

Lemma occurs_cons (tok : string) (c : ascii) (r : string) :
  Str.occurs tok (String c r) =
  match Str.strip_prefix tok (String c r) with
  | Some _ => true
  | None => Str.occurs tok r
  end.
Proof. reflexivity. Qed.

Lemma replace_from_absent (tok repl : string) (s : string) :
  forall before,
    Str.occurs tok s = false -> Str.replace_from tok repl before 0 s = s.
Proof.
  induction s as [|c r IH]; intros before Hocc; [reflexivity|].
  rewrite occurs_cons in Hocc. cbn [Str.replace_from].
  destruct (Str.strip_prefix tok (String c r)); [discriminate|].
  rewrite (IH _ Hocc). reflexivity.
Qed.

(** A replacement for a token leaves a text without the token alone. *)
Lemma replaceAll_absent (tok repl s : string) :
  Str.occurs tok s = false -> Str.replaceAll tok repl s = s.
Proof.
  intros Hocc. unfold Str.replaceAll. destruct tok; [reflexivity|].
  apply replace_from_absent, Hocc.
Qed.

(** Every replacement of the chain is for one of the eight tokens. *)
Lemma substitutions_tokens (p : params) (tv : string * string) :
  In tv (substitutions p) -> In (fst tv) tokens.
Proof.
  intros Hin. simpl in Hin.
  repeat (destruct Hin as [<-|Hin]; [simpl; tauto|]). destruct Hin.
Qed.

(** ** C9: rendering twice *)

(** The claim of C9 fails on these two templates.  In the first, no
    value has a brace or a dollar sign in it, and yet the second pass
    changes the text: the first pass has put the value [DEBUG] between the
    braces that stood around the placeholder.  In the second, the template
    names a placeholder twice and the value is the replacement pattern
    for "the text after the match", which holds no placeholder either. *)
Lemma render_twice_example :
  let h := Sample.linux [] Sample.nothing_readonly in
  (let p := resolve h (parse_env "DEBUG=DEBUG") in
   let template := Str.dq "{'mcpServers':{'x':{'command':'{{{{DEBUG}}}}'}}}" in
   forallb (fun tv => negb (Str.occurs "{" (snd tv)) && negb (Str.occurs "}" (snd tv))
                      && negb (Str.occurs "$" (snd tv)))
     (substitutions p) = true
   /\ render p template = Str.dq "{'mcpServers':{'x':{'command':'{{DEBUG}}'}}}"
   /\ render p (render p template) = Str.dq "{'mcpServers':{'x':{'command':'DEBUG'}}}"
   /\ render p (render p template) <> render p template)
  /\ (let p := resolve h (parse_env "DEBUG=$'") in
      forallb (fun tv => negb (Str.occurs "{{" (snd tv))) (substitutions p) = true
      /\ render p "{{DEBUG}} {{DEBUG}}" = " {{DEBUG}} "
      /\ render p (render p "{{DEBUG}} {{DEBUG}}") = "   "
      /\ render p (render p "{{DEBUG}} {{DEBUG}}") <> render p "{{DEBUG}} {{DEBUG}}").
Proof.
  intros h. split.
  - intros p template. split; [vm_compute; reflexivity|].
    split; [vm_compute; reflexivity|]. split; [vm_compute; reflexivity|].
    vm_compute. discriminate.
  - intros p. split; [vm_compute; reflexivity|].
    split; [vm_compute; reflexivity|]. split; [vm_compute; reflexivity|].
    vm_compute. discriminate.
Qed.

(** ** C6: a key the source does not have *)


(** ** C10: a key with an empty value *)

Lemma or_else_delete (env : gmap string string) (key k d : string) :
  env !! key = Some EmptyString ->
  or_else (delete key env !! k) d = or_else (env !! k) d.
Proof.
  intros Hempty. destruct (decide (key = k)) as [<-|Hne].
  - rewrite lookup_delete_eq, Hempty. reflexivity.
  - rewrite lookup_delete_ne by exact Hne. reflexivity.
Qed.

Lemma or_else_empty (v : option string) (d : string) :
  or_else v d = EmptyString -> d = EmptyString.
Proof. destruct v as [[|c s]|]; simpl; congruence. Qed.

Lemma trimEnd_cons (c : ascii) (r : string) :
  Str.is_space c = false -> Str.trimEnd (String c r) = String c (Str.trimEnd r).
Proof.
  intros Hc. simpl. rewrite Hc. destruct (Str.trimEnd r); reflexivity.
Qed.

Lemma trimEnd_blank (pad : string) :
  Str.blank pad = true -> Str.trimEnd pad = EmptyString.
Proof.
  induction pad as [|c r IH]; simpl; [reflexivity|].
  intros H. apply andb_prop in H. destruct H as [Hc Hr].
  rewrite (IH Hr), Hc. reflexivity.
Qed.

(** C10.  A key of the parameter source whose value is empty once trimmed
    counts for nothing.  The line [KEY=] followed by white space stores the
    empty string under the key; the values resolved from a source that
    holds the empty string under a key are those resolved from the same
    source without the key; and a resolved value is empty only where the
    built-in default is, which the URLs and [DEBUG] never are. *)
Theorem empty_value_is_omission (h : host) (env : gmap string string) :
  (forall key pad,
      In key defaulted_keys ->
      Str.blank pad = true ->
      env_line env (key ++ "=" ++ pad) = <[key := EmptyString]> env)
  /\ (forall key,
         env !! key = Some EmptyString ->
         resolve h env = resolve h (delete key env))
  /\ (let p := resolve h env in
      (installDir p = EmptyString -> homedir h = EmptyString)
      /\ (hubspotPath p = EmptyString ->
          path_join h (installDir p) "hubspot-mcp-railway" = EmptyString)
      /\ (sharepointPath p = EmptyString ->
          path_join h (installDir p) "sharepoint-mcp-railway" = EmptyString)
      /\ (asanaPath p = EmptyString ->
          path_join h (installDir p) "asana-mcp-railway" = EmptyString)
      /\ hubspotUrl p <> EmptyString
      /\ sharepointUrl p <> EmptyString
      /\ asanaUrl p <> EmptyString
      /\ debug p <> EmptyString).
Proof.
  split; [|split].
  - intros key pad Hin Hpad. simpl in Hin.
    repeat (destruct Hin as [<-|Hin];
            [unfold env_line, Str.trim; cbv [String.append];
             simpl Str.trimStart;
             rewrite !trimEnd_cons by reflexivity;
             rewrite (trimEnd_blank pad Hpad); reflexivity|]).
    destruct Hin.
  - intros key Hempty. unfold resolve.
    rewrite !(or_else_delete env key) by exact Hempty. reflexivity.
  - unfold resolve. cbn [installDir hubspotPath sharepointPath asanaPath
                          hubspotUrl sharepointUrl asanaUrl debug].
    repeat match goal with |- _ /\ _ => split end;
      try apply or_else_empty; intros H; apply or_else_empty in H; discriminate.
Qed.

Lemma empty_value_is_omission_witness :
  let h := Sample.linux [] Sample.nothing_readonly in
  env_line ∅ "DEBUG=  " = <["DEBUG" := EmptyString]> ∅
  /\ resolve h (parse_env "DEBUG=  ") = resolve h ∅
  /\ debug (resolve h (parse_env "DEBUG=  ")) = "false".
Proof.
  intros h.
  destruct (empty_value_is_omission h (parse_env "DEBUG=  ")) as (_ & Homit & _).
  destruct (empty_value_is_omission h ∅) as (Hline & _ & _).
  split; [apply (Hline "DEBUG" "  "); [simpl; tauto | reflexivity]|].
  assert (Hres : resolve h (parse_env "DEBUG=  ") = resolve h ∅).
  { rewrite (Homit "DEBUG") by (vm_compute; reflexivity).
    vm_compute. reflexivity. }
  split; [exact Hres|]. rewrite Hres. reflexivity.
Defined.

(** * Further properties of the installer *)

(** ** What a run does to the disk *)

Lemma disk_events_bind {A B} (m : io A) (k : A -> io B) :
  disk_events (fst (bind m k)) =
  disk_events (fst m)
  ++ match snd m with inr a => disk_events (fst (k a)) | inl _ => [] end.
Proof.
  unfold disk_events. rewrite fst_bind, List.filter_app.
  destruct (snd m); reflexivity.
Qed.

Lemma generate_disk (JSON_parse : string -> string + json) (h : host) :
  disk_events (fst (generate JSON_parse h)) = [].
Proof.
  unfold generate, loadEnv, fs_readFile, json_parse.
  destruct (readFile h (path_join h (rootDir h) ".env")) as [e|content]; simpl.
  - destruct (decide _); simpl; [|reflexivity].
    destruct (readFile h (template_file h)); simpl; [reflexivity|].
    destruct (JSON_parse _); reflexivity.
  - destruct (readFile h (template_file h)); simpl; [reflexivity|].
    destruct (JSON_parse _); reflexivity.
Qed.

Lemma install_disk (JSON_parse : string -> string + json)
  (JSON_stringify : json -> string) (h : host) :
  disk_events (fst (install JSON_parse JSON_stringify h)) =
  match snd (generate JSON_parse h), snd (getClaudeConfigPath h) with
  | inr g, inr path =>
      disk_events (fst (update_target JSON_parse JSON_stringify h g path))
  | _, _ => []
  end.
Proof.
  assert (Hfail : forall e, disk_events (fst (install_failed h e)) = []).
  { intros e. unfold install_failed. simpl. destruct (decide _); reflexivity. }
  assert (Hbody : disk_events (fst (install_body JSON_parse JSON_stringify h)) =
                  match snd (generate JSON_parse h), snd (getClaudeConfigPath h) with
                  | inr g, inr path =>
                      disk_events
                        (fst (update_target JSON_parse JSON_stringify h g path))
                  | _, _ => []
                  end).
  { unfold install_body. rewrite disk_events_bind, generate_disk. simpl.
    destruct (snd (generate JSON_parse h)) as [e|g]; [reflexivity|].
    rewrite disk_events_bind, getClaudeConfigPath_trace. simpl.
    destruct (snd (getClaudeConfigPath h)) as [e|path]; [reflexivity|].
    rewrite disk_events_bind.
    destruct (snd (update_target _ _ _ _ _)); simpl; rewrite ?app_nil_r; reflexivity. }
  rewrite <- Hbody. unfold install.
  destruct (install_body JSON_parse JSON_stringify h) as [t [e|[]]].
  - cbn -[install_failed]. unfold disk_events in *.
    rewrite List.filter_app, Hfail, app_nil_r. reflexivity.
  - reflexivity.
Qed.

Lemma getClaudeConfigPath_result (h : host) :
  snd (getClaudeConfigPath h) =
  if String.eqb (platform h) "darwin" then
    inr (path_join h (homedir h)
           "Library/Application Support/Claude/claude_desktop_config.json")
  else if String.eqb (platform h) "linux" then
    inr (path_join h (homedir h) ".config/Claude/claude_desktop_config.json")
  else if String.eqb (platform h) "win32" then
    match env_APPDATA h with
    | Some appdata => inr (path_join h appdata "Claude/claude_desktop_config.json")
    | None =>
        inl {| err_code := Some "ERR_INVALID_ARG_TYPE";
               err_message :=
                 Str.dq "The 'path' argument must be of type string. Received undefined" |}
    end
  else inl (plain_error ("Unsupported platform: " ++ platform h)).
Proof.
  unfold getClaudeConfigPath.
  repeat match goal with |- context [if ?b then _ else _] => destruct b end;
    try reflexivity.
  destruct (env_APPDATA h); reflexivity.
Qed.

(** X1.  On an operating system other than macOS, Linux and Windows the
    installer stops with exit status 1 before it touches the disk: no
    directory is made and no file is written; when the template could be
    rendered, the error reported names the platform.  The same holds on
    Windows when [APPDATA] is not set. *)
Theorem unsupported_platform_is_fatal
  (JSON_parse : string -> string + json) (JSON_stringify : json -> string)
  (h : host) :
  (platform h <> "darwin" /\ platform h <> "linux" /\ platform h <> "win32")
  \/ (platform h = "win32" /\ env_APPDATA h = None) ->
  let r := install JSON_parse JSON_stringify h in
  snd r = Exited 1
  /\ disk_events (fst r) = []
  /\ (forall tg g,
         generate JSON_parse h = (tg, inr g) ->
         platform h <> "win32" ->
         In (EvLog Error ("Installation failed: Unsupported platform: " ++ platform h))
            (fst r)).
Proof.
  intros Hos r.
  assert (Hpath : exists e,
             snd (getClaudeConfigPath h) = inl e
             /\ (platform h <> "win32" ->
                 e = plain_error ("Unsupported platform: " ++ platform h))).
  { rewrite getClaudeConfigPath_result.
    destruct Hos as [(Hd & Hl & Hw)|[Hw Happ]].
    - apply String.eqb_neq in Hd, Hl, Hw. rewrite Hd, Hl, Hw. eauto.
    - rewrite Hw, Happ. simpl. eexists. split; [reflexivity|congruence]. }
  destruct Hpath as (e & Hpath & Hmsg).
  split; [|split].
  - unfold r. rewrite install_ending, install_body_result, Hpath.
    destruct (snd (generate JSON_parse h)); reflexivity.
  - unfold r. rewrite install_disk, Hpath.
    destruct (snd (generate JSON_parse h)); reflexivity.
  - intros tg g Hgen Hw. rewrite (Hmsg Hw) in Hpath.
    apply (install_reports JSON_parse JSON_stringify h
             (plain_error ("Unsupported platform: " ++ platform h))).
    rewrite install_body_result, Hgen, Hpath. reflexivity.
Qed.

Lemma unsupported_platform_is_fatal_witness :
  let h := {| rootDir := "/opt/deploy"; platform := "freebsd"; homedir := "/home/ada";
              env_APPDATA := None; env_DEBUG := None; now := 0;
              path_join := Sample.join; path_dirname := Sample.dirname;
              readFile := Sample.lookup_file
                            [(Sample.template_path, Sample.template)];
              mkdir_p := fun _ => None; writeFile := fun _ _ => None |} in
  let r := install JsonText.parse JsonText.stringify h in
  snd r = Exited 1 /\ disk_events (fst r) = []
  /\ In (EvLog Error "Installation failed: Unsupported platform: freebsd") (fst r).
Proof.
  intros h r.
  destruct (unsupported_platform_is_fatal JsonText.parse JsonText.stringify h)
    as (Hend & Hdisk & Hmsg).
  { left. repeat split; discriminate. }
  split; [exact Hend|]. split; [exact Hdisk|].
  destruct (generate JsonText.parse h) as [tg [e|g]] eqn:Hgen;
    [vm_compute in Hgen; discriminate|].
  apply (Hmsg tg g eq_refl). discriminate.
Defined.

(** ** Failures of the file system *)

(** X2.  Three failures of the file system before the backup are fatal
    and leave no file written: a template that cannot be read (a missing
    one too, unlike the parameter source), a directory that cannot be
    made, and a target that cannot be read for a reason other than its
    absence.  Each is reported with the message of the error. *)
Theorem early_io_failures_are_fatal
  (JSON_parse : string -> string + json) (JSON_stringify : json -> string)
  (h : host) (e : js_error) :
  let r := install JSON_parse JSON_stringify h in
  let failed :=
    snd r = Exited 1 /\ writes (fst r) = []
    /\ In (EvLog Error ("Installation failed: " ++ err_message e)) (fst r) in
  (forall te env,
      loadEnv h = (te, inr env) ->
      readFile h (template_file h) = inl e ->
      failed /\ disk_events (fst r) = [])
  /\ (forall tg g tp path,
         generate JSON_parse h = (tg, inr g) ->
         getClaudeConfigPath h = (tp, inr path) ->
         mkdir_p h (path_dirname h path) = Some e ->
         failed /\ disk_events (fst r) = [EvMkdir (path_dirname h path) false])
  /\ (forall tg g tp path,
         generate JSON_parse h = (tg, inr g) ->
         getClaudeConfigPath h = (tp, inr path) ->
         mkdir_p h (path_dirname h path) = None ->
         readFile h path = inl e ->
         err_code e <> Some "ENOENT" ->
         failed).
Proof.
  intros r failed. unfold failed, r. clear failed r.
  split; [|split].
  - intros te env Henv Htpl.
    assert (Hgen : snd (generate JSON_parse h) = inl e).
    { rewrite generate_result, Henv, Htpl. reflexivity. }
    assert (Hbody : snd (install_body JSON_parse JSON_stringify h) = inl e).
    { rewrite install_body_result, Hgen. reflexivity. }
    repeat split.
    + rewrite install_ending, Hbody. reflexivity.
    + rewrite install_writes, install_body_writes, Hgen. reflexivity.
    + apply install_reports, Hbody.
    + rewrite install_disk, Hgen. reflexivity.
  - intros tg g tp path Hgen Hpath Hmk.
    assert (Hbody : snd (install_body JSON_parse JSON_stringify h) = inl e).
    { rewrite install_body_result, Hgen, Hpath. simpl.
      rewrite update_target_result, Hmk. reflexivity. }
    repeat split.
    + rewrite install_ending, Hbody. reflexivity.
    + rewrite install_writes, install_body_writes, Hgen, Hpath. simpl.
      rewrite update_target_writes, Hmk. reflexivity.
    + apply install_reports, Hbody.
    + rewrite install_disk, Hgen, Hpath. simpl.
      unfold update_target, fs_mkdir. rewrite Hmk. reflexivity.
  - intros tg g tp path Hgen Hpath Hmk Hread Hcode.
    assert (Hex : snd (read_existing JSON_parse h path) = inl e).
    { unfold read_existing, fs_readFile. rewrite Hread. simpl.
      destruct (decide _); [reflexivity|contradiction]. }
    assert (Hbody : snd (install_body JSON_parse JSON_stringify h) = inl e).
    { rewrite install_body_result, Hgen, Hpath. simpl.
      rewrite update_target_result, Hmk, Hex. reflexivity. }
    repeat split.
    + rewrite install_ending, Hbody. reflexivity.
    + rewrite install_writes, install_body_writes, Hgen, Hpath. simpl.
      rewrite update_target_writes, Hmk, Hex. reflexivity.
    + apply install_reports, Hbody.
Qed.

Lemma early_io_failures_are_fatal_witness :
  (let r := Sample.run [] Sample.nothing_readonly in
   snd r = Exited 1 /\ disk_events (fst r) = [])
  /\ (let h := Sample.linux [(Sample.template_path, Sample.template)]
                 Sample.nothing_readonly in
      let locked := {| rootDir := rootDir h; platform := platform h;
                       homedir := homedir h; env_APPDATA := None; env_DEBUG := None;
                       now := now h; path_join := path_join h;
                       path_dirname := path_dirname h; readFile := readFile h;
                       mkdir_p := fun dir => Some (Sample.eacces dir);
                       writeFile := writeFile h |} in
      let r := install JsonText.parse JsonText.stringify locked in
      snd r = Exited 1
      /\ disk_events (fst r) = [EvMkdir "/home/ada/.config/Claude" false]).
Proof.
  split.
  - intros r.
    destruct (proj1 (early_io_failures_are_fatal JsonText.parse JsonText.stringify
                       (Sample.linux [] Sample.nothing_readonly)
                       (Sample.enoent Sample.template_path))
                [EvLog Warning ".env file not found, using defaults"] ∅
                eq_refl eq_refl) as ((Hend & _ & _) & Hdisk).
    split; [exact Hend | exact Hdisk].
  - intros h locked r.
    destruct (generate JsonText.parse locked) as [tg [e|g]] eqn:Hgen;
      [vm_compute in Hgen; discriminate|].
    destruct (proj1 (proj2 (early_io_failures_are_fatal JsonText.parse
                              JsonText.stringify locked
                              (Sample.eacces "/home/ada/.config/Claude")))
                tg g [] Sample.target_path Hgen)
      as ((Hend & _ & _) & Hdisk);
      [vm_compute; reflexivity | vm_compute; reflexivity|].
    split; [exact Hend | exact Hdisk].
Defined.

(** ** The order and the number of the writes *)

(** X3.  A run writes to at most two places, the backup first and the
    target second, each at most once; nothing is written after a write the
    file system has refused; and a run whose target path cannot be
    determined writes nothing. *)
Theorem writes_are_backup_then_target
  (JSON_parse : string -> string + json) (JSON_stringify : json -> string)
  (h : host) :
  let ws := writes (fst (install JSON_parse JSON_stringify h)) in
  (forall e, snd (getClaudeConfigPath h) = inl e -> ws = [])
  /\ (forall path,
         snd (getClaudeConfigPath h) = inr path ->
         exists bs ts,
           ws = bs ++ ts
           /\ (bs = [] \/ exists c ok, bs = [(backup_path h path, c, ok)])
           /\ (ts = [] \/ exists c ok, ts = [(path, c, ok)])
           /\ (forall c, bs = [(backup_path h path, c, false)] -> ts = [])).
Proof.
  intros ws. unfold ws. clear ws. rewrite install_writes, install_body_writes.
  split.
  - intros e Hpath. rewrite Hpath.
    destruct (snd (generate JSON_parse h)); reflexivity.
  - intros path Hpath. rewrite Hpath.
    destruct (snd (generate JSON_parse h)) as [e|g].
    { exists [], []. repeat split; auto. }
    rewrite update_target_writes.
    destruct (mkdir_p h _) as [e|].
    { exists [], []. repeat split; auto. }
    destruct (snd (read_existing JSON_parse h path)) as [e|d].
    { exists [], []. repeat split; auto. }
    rewrite backup_writes, backup_result.
    eexists _, _. split; [reflexivity|].
    destruct (providers d) as [|entry rest].
    + split; [left; reflexivity|]. split; [|discriminate].
      destruct (snd (get_mcpServers d)); [left; reflexivity|].
      destruct (snd (merge d g)); [left; reflexivity|]. right. eauto.
    + split; [right; eauto|]. unfold accepted.
      destruct (snd (get_mcpServers d)).
      { split; [left; reflexivity|reflexivity]. }
      destruct (writeFile h (backup_path h path) (JSON_stringify d)).
      { split; [left; reflexivity|reflexivity]. }
      split; [|intros c Hc; inversion Hc].
      destruct (snd (merge d g)); [left; reflexivity|]. right. eauto.
Qed.

(** X4.  A run ends normally exactly when it has made a write to the
    target that the file system accepted: exit status 1 means the target
    was not replaced, and a replaced target means exit status 0. *)
Theorem completed_iff_target_written
  (JSON_parse : string -> string + json) (JSON_stringify : json -> string)
  (h : host) :
  let r := install JSON_parse JSON_stringify h in
  snd r = Completed <->
  exists path content,
    snd (getClaudeConfigPath h) = inr path
    /\ In (path, content, true) (writes (fst r)).
Proof.
  intros r. unfold r. clear r.
  rewrite install_ending, install_writes, install_body_result, install_body_writes.
  destruct (snd (generate JSON_parse h)) as [e|g].
  { split; [discriminate|]. intros (path & content & _ & []). }
  destruct (snd (getClaudeConfigPath h)) as [e|path].
  { split; [discriminate|]. intros (path & content & Hp & _). discriminate. }
  rewrite update_target_result, update_target_writes.
  destruct (mkdir_p h _) as [e|].
  { split; [discriminate|]. intros (p & content & _ & []). }
  destruct (snd (read_existing JSON_parse h path)) as [e|d].
  { split; [discriminate|]. intros (p & content & _ & []). }
  assert (Hb : forall w, In w (writes (fst (backup JSON_stringify h path d))) ->
                         fst (fst w) <> path).
  { intros w. rewrite backup_writes. destruct (providers d); [intros []|].
    intros [<-|[]]. simpl. apply String.eqb_neq, backup_path_fresh. }
  destruct (snd (backup JSON_stringify h path d)) as [e|[]].
  { split; [discriminate|]. intros (p & content & Hp & Hin).
    inversion Hp; subst. rewrite app_nil_r in Hin. apply Hb in Hin.
    simpl in Hin. congruence. }
  destruct (snd (merge d g)) as [e|final].
  { split; [discriminate|]. intros (p & content & Hp & Hin).
    inversion Hp; subst. rewrite app_nil_r in Hin. apply Hb in Hin.
    simpl in Hin. congruence. }
  unfold accepted.
  destruct (writeFile h path (JSON_stringify final)) as [e|].
  - split; [discriminate|]. intros (p & content & Hp & Hin).
    inversion Hp; subst. apply in_app_or in Hin. destruct Hin as [Hin|Hin].
    + apply Hb in Hin. simpl in Hin. congruence.
    + destruct Hin as [Heq|[]]. inversion Heq.
  - split; [|reflexivity]. intros _. exists path, (JSON_stringify final).
    split; [reflexivity|]. apply in_or_app. right. left. reflexivity.
Qed.

(** ** Targets and templates that are not objects *)

(** X5.  The target need not hold an object.  When it holds [null], a
    number, a string or a boolean, the run ends with exit status 1 and
    writes nothing, not even a backup.  When it holds an array and the
    rendered document is not [null], no backup is taken and the same
    array is written back: the generated servers are not in the file. *)
Theorem target_that_is_no_object
  (JSON_parse : string -> string + json) (JSON_stringify : json -> string)
  (h : host) (tg tp : list event) (g d : json) (path text : string) :
  generate JSON_parse h = (tg, inr g) ->
  getClaudeConfigPath h = (tp, inr path) ->
  mkdir_p h (path_dirname h path) = None ->
  readFile h path = inr text ->
  JSON_parse text = inr d ->
  let r := install JSON_parse JSON_stringify h in
  (d = JNull \/ (exists b, d = JBool b) \/ (exists lit, d = JNum lit)
   \/ (exists s, d = JStr s) ->
   snd r = Exited 1 /\ writes (fst r) = [])
  /\ (forall elems,
         d = JArr elems -> g <> JNull ->
         writes (fst r) =
         [(path, JSON_stringify (JArr elems),
           accepted h path (JSON_stringify (JArr elems)))]).
Proof.
  intros Hgen Hpath Hmk Hread Hparse r.
  assert (Hex : read_existing JSON_parse h path = ([], inr d)).
  { unfold read_existing, fs_readFile, json_parse. rewrite Hread. simpl.
    rewrite Hparse. reflexivity. }
  pose proof (reached_writes _ JSON_stringify _ _ _ _ _ _ _ Hgen Hpath Hmk Hex) as Hw.
  assert (Hend : snd r =
                 match snd (backup JSON_stringify h path d) with
                 | inl _ => Exited 1
                 | inr _ =>
                     match snd (merge d g) with
                     | inl _ => Exited 1
                     | inr final =>
                         match writeFile h path (JSON_stringify final) with
                         | Some _ => Exited 1
                         | None => Completed
                         end
                     end
                 end).
  { unfold r. rewrite install_ending, install_body_result, Hgen, Hpath. simpl.
    rewrite update_target_result, Hmk, Hex. simpl.
    destruct (snd (backup _ _ _ _)); [reflexivity|].
    destruct (snd (merge d g)); [reflexivity|].
    destruct (writeFile h path _); reflexivity. }
  split.
  - intros Hprim. fold r in Hw. rewrite Hend, Hw, backup_writes, backup_result.
    destruct Hprim as [->|[[b ->]|[[lit ->]|[s ->]]]]; simpl.
    + split; reflexivity.
    + destruct g; split; reflexivity.
    + destruct g; split; reflexivity.
    + destruct g; split; reflexivity.
  - intros elems -> Hg. fold r in Hw. rewrite Hw, backup_writes, backup_result.
    simpl. destruct g; try congruence; reflexivity.
Qed.

Lemma target_that_is_no_object_witness :
  (let r := Sample.run [(Sample.template_path, Sample.template);
                        (Sample.target_path, Str.dq "'servers'")]
              Sample.nothing_readonly in
   snd r = Exited 1 /\ writes (fst r) = [])
  /\ (let r := Sample.run [(Sample.template_path, Sample.template);
                           (Sample.target_path, "[1, 2]")]
                 Sample.nothing_readonly in
      writes (fst r) =
      [(Sample.target_path, JsonText.stringify (JArr [JNum "1"; JNum "2"]), true)]).
Proof.
  split; intros r.
  - pose (h := Sample.linux [(Sample.template_path, Sample.template);
                             (Sample.target_path, Str.dq "'servers'")]
                 Sample.nothing_readonly).
    destruct (generate JsonText.parse h) as [tg [e|g]] eqn:Hgen;
      [vm_compute in Hgen; discriminate|].
    destruct (target_that_is_no_object JsonText.parse JsonText.stringify h tg [] g
                (JStr "servers") Sample.target_path (Str.dq "'servers'") Hgen)
      as [Hprim _]; [vm_compute; reflexivity ..|].
    apply Hprim. right. right. right. eexists. reflexivity.
  - pose (h := Sample.linux [(Sample.template_path, Sample.template);
                             (Sample.target_path, "[1, 2]")]
                 Sample.nothing_readonly).
    destruct (generate JsonText.parse h) as [tg [e|g]] eqn:Hgen;
      [vm_compute in Hgen; discriminate|].
    destruct (target_that_is_no_object JsonText.parse JsonText.stringify h tg [] g
                (JArr [JNum "1"; JNum "2"]) Sample.target_path "[1, 2]" Hgen)
      as [_ Harr]; [vm_compute; reflexivity ..|].
    apply (Harr _ eq_refl). vm_compute in Hgen. inversion Hgen. discriminate.
Defined.

(** X6.  A template that renders to [null] is found out late: the backup
    of a target with provider entries has been written by then, while the
    target itself is never written and the run ends with exit status 1. *)
Theorem null_template_fails_after_backup
  (JSON_parse : string -> string + json) (JSON_stringify : json -> string)
  (h : host) (tg tp t0 : list event) (d : json) (path : string) :
  generate JSON_parse h = (tg, inr JNull) ->
  getClaudeConfigPath h = (tp, inr path) ->
  let r := install JSON_parse JSON_stringify h in
  snd r = Exited 1
  /\ writes_to path (fst r) = []
  /\ (mkdir_p h (path_dirname h path) = None ->
      read_existing JSON_parse h path = (t0, inr d) ->
      (exists name entry, provider d name = Some entry) ->
      writes (fst r) =
      [(backup_path h path, JSON_stringify d,
        accepted h (backup_path h path) (JSON_stringify d))]).
Proof.
  intros Hgen Hpath r.
  assert (Hmerge : forall d', exists e, snd (merge d' JNull) = inl e).
  { intros d'. destruct d'; simpl; eauto. }
  assert (Hbackup : forall d' w,
             In w (writes (fst (backup JSON_stringify h path d'))) ->
             String.eqb (fst (fst w)) path = false).
  { intros d' w. rewrite backup_writes. destruct (providers d'); [intros []|].
    intros [<-|[]]. apply backup_path_fresh. }
  assert (Hnone : forall l : list (string * string * bool),
             (forall w, In w l -> String.eqb (fst (fst w)) path = false) ->
             List.filter (fun w => String.eqb (fst (fst w)) path) l = []).
  { induction l as [|w l IH]; intros Hall; [reflexivity|]. simpl.
    rewrite (Hall w (or_introl eq_refl)). apply IH.
    intros w' Hin. apply Hall. right. exact Hin. }
  split; [|split].
  - unfold r. rewrite install_ending, install_body_result, Hgen, Hpath. simpl.
    rewrite update_target_result.
    destruct (mkdir_p h _); [reflexivity|].
    destruct (snd (read_existing JSON_parse h path)) as [e|d']; [reflexivity|].
    destruct (snd (backup JSON_stringify h path d')); [reflexivity|].
    destruct (Hmerge d') as [e ->]. reflexivity.
  - unfold r, writes_to.
    rewrite install_writes, install_body_writes, Hgen, Hpath. simpl.
    rewrite update_target_writes.
    destruct (mkdir_p h _); [reflexivity|].
    destruct (snd (read_existing JSON_parse h path)) as [e|d']; [reflexivity|].
    destruct (Hmerge d') as [e ->].
    destruct (snd (backup JSON_stringify h path d'));
      rewrite app_nil_r; apply Hnone, Hbackup.
  - intros Hmk Hread Hprov. unfold r.
    rewrite (reached_writes _ JSON_stringify _ _ _ _ _ _ _ Hgen Hpath Hmk Hread).
    destruct (Hmerge d) as [e ->]. rewrite backup_writes.
    apply providers_inhabited in Hprov.
    destruct (providers d); [congruence|].
    destruct (snd (backup _ _ _ _)); reflexivity.
Qed.

Lemma null_template_fails_after_backup_witness :
  let files := [(Sample.template_path, "null");
                (Sample.target_path, Sample.existing)] in
  let r := Sample.run files Sample.nothing_readonly in
  snd r = Exited 1
  /\ writes_to Sample.target_path (fst r) = []
  /\ length (writes (fst r)) = 1.
Proof.
  intros files r.
  pose (h := Sample.linux files Sample.nothing_readonly).
  destruct (read_existing JsonText.parse h Sample.target_path) as [t0 [e|d]] eqn:Hread;
    [vm_compute in Hread; discriminate|].
  destruct (null_template_fails_after_backup JsonText.parse JsonText.stringify h
              [EvLog Info "Loading configuration...";
               EvLog Warning ".env file not found, using defaults";
               EvLog Success "Configuration loaded";
               EvLog Info "  Install directory: /home/ada";
               EvLog Info "  Orchestrator: /opt/deploy/node_modules/@magicturtle/claude-orchestrator";
               EvLog Info "Generating Claude Desktop configuration..."]
              [] t0 d Sample.target_path)
    as (Hend & Hto & Hw); [vm_compute; reflexivity ..|].
  split; [exact Hend|]. split; [exact Hto|].
  change r with (install JsonText.parse JsonText.stringify h).
  rewrite Hw; [reflexivity | reflexivity | exact Hread |].
  exists "files". vm_compute in Hread. inversion Hread; subst.
  eexists. reflexivity.
Defined.

(** * Further properties of the parameter source *)

(** ** Trimming and splitting *)

Lemma app_cons (c : ascii) (a b : string) :
  (String c a ++ b)%string = String c (a ++ b).
Proof. reflexivity. Qed.

Lemma app_nil (b : string) : (EmptyString ++ b)%string = b.
Proof. reflexivity. Qed.

Lemma app_cons_assoc (a : string) (c : ascii) (b : string) :
  (a ++ String c b)%string = ((a ++ String c EmptyString) ++ b)%string.
Proof.
  induction a as [|x a IH]; [reflexivity|]. rewrite !app_cons, IH. reflexivity.
Qed.

Lemma trimStart_idem (s : string) : Str.trimStart (Str.trimStart s) = Str.trimStart s.
Proof.
  induction s as [|c r IH]; simpl; [reflexivity|].
  destruct (Str.is_space c) eqn:Hc; [exact IH|]. simpl. rewrite Hc. reflexivity.
Qed.

Lemma trimEnd_space (c : ascii) (r : string) :
  Str.is_space c = true ->
  Str.trimEnd (String c r) =
  match Str.trimEnd r with
  | EmptyString => EmptyString
  | String x r' => String c (String x r')
  end.
Proof. intros Hc. simpl. rewrite Hc. destruct (Str.trimEnd r); reflexivity. Qed.

Lemma trimEnd_idem (s : string) : Str.trimEnd (Str.trimEnd s) = Str.trimEnd s.
Proof.
  induction s as [|c r IH]; [reflexivity|].
  destruct (Str.is_space c) eqn:Hc.
  - rewrite (trimEnd_space c r Hc).
    destruct (Str.trimEnd r) as [|x r'] eqn:Hr; [reflexivity|].
    rewrite (trimEnd_space c _ Hc), IH. reflexivity.
  - rewrite (trimEnd_cons c r Hc), (trimEnd_cons c _ Hc), IH. reflexivity.
Qed.

Lemma trim_commute (s : string) :
  Str.trimStart (Str.trimEnd s) = Str.trimEnd (Str.trimStart s).
Proof.
  induction s as [|c r IH]; [reflexivity|].
  destruct (Str.is_space c) eqn:Hc.
  - rewrite (trimEnd_space c r Hc). simpl Str.trimStart at 2. rewrite Hc, <- IH.
    destruct (Str.trimEnd r) as [|x r']; [reflexivity|].
    simpl. rewrite Hc. reflexivity.
  - rewrite (trimEnd_cons c r Hc). simpl. rewrite Hc.
    rewrite (trimEnd_cons c r Hc). reflexivity.
Qed.

Lemma trim_idem (s : string) : Str.trim (Str.trim s) = Str.trim s.
Proof.
  unfold Str.trim. rewrite trim_commute, trimEnd_idem, trimStart_idem.
  reflexivity.
Qed.

(** A trimmed text does not start with white space. *)
Lemma trim_head (s : string) (c : ascii) (r : string) :
  Str.trim s = String c r -> Str.is_space c = false.
Proof.
  unfold Str.trim. rewrite <- trim_commute.
  generalize (Str.trimEnd s). intros t. induction t as [|x t IH]; simpl; [discriminate|].
  destruct (Str.is_space x) eqn:Hx; [exact IH|].
  intros H. inversion H; subst. exact Hx.
Qed.

Lemma trimStart_app (a : string) (c : ascii) (b : string) :
  Str.is_space c = false ->
  Str.trimStart (a ++ String c b) = (Str.trimStart a ++ String c b)%string.
Proof.
  intros Hc. induction a as [|x a IH].
  - rewrite app_nil. simpl. rewrite Hc. reflexivity.
  - rewrite app_cons. simpl. destruct (Str.is_space x); [exact IH|reflexivity].
Qed.

Lemma trimEnd_app (a b : string) :
  Str.trimEnd b <> EmptyString ->
  Str.trimEnd (a ++ b) = (a ++ Str.trimEnd b)%string.
Proof.
  intros Hb. induction a as [|x a IH]; [reflexivity|].
  change (String x a ++ b)%string with (String x (a ++ b)%string).
  cbn [Str.trimEnd]. rewrite IH, app_cons.
  destruct (a ++ Str.trimEnd b)%string eqn:Hab; [|reflexivity].
  destruct a; [rewrite app_nil in Hab; contradiction|discriminate].
Qed.

(** [c] is one of the characters of [s]. *)
Lemma occurs_char (c x : ascii) (r : string) :
  Str.occurs (String c EmptyString) (String x r) =
  if Ascii.eqb c x then true else Str.occurs (String c EmptyString) r.
Proof. rewrite occurs_cons. simpl. destruct (Ascii.eqb c x); reflexivity. Qed.

Lemma occurs_char_trimStart (c : ascii) (s : string) :
  Str.occurs (String c EmptyString) s = false ->
  Str.occurs (String c EmptyString) (Str.trimStart s) = false.
Proof.
  induction s as [|x r IH]; [reflexivity|]. intros H.
  simpl Str.trimStart. destruct (Str.is_space x); [|exact H].
  apply IH. rewrite occurs_char in H. destruct (Ascii.eqb c x); [discriminate|exact H].
Qed.

Lemma occurs_char_trimEnd (c : ascii) (s : string) :
  Str.occurs (String c EmptyString) s = false ->
  Str.occurs (String c EmptyString) (Str.trimEnd s) = false.
Proof.
  induction s as [|x r IH]; [reflexivity|]. intros H.
  rewrite occurs_char in H. destruct (Ascii.eqb c x) eqn:Hcx; [discriminate|].
  specialize (IH H). cbn [Str.trimEnd].
  destruct (Str.trimEnd r) as [|y r'].
  - destruct (Str.is_space x); [reflexivity|].
    rewrite occurs_char, Hcx. reflexivity.
  - rewrite occurs_char, Hcx. exact IH.
Qed.

Lemma split_first (sep : ascii) (a b : string) :
  Str.occurs (String sep EmptyString) a = false ->
  Str.split sep (a ++ String sep b) = a :: Str.split sep b.
Proof.
  induction a as [|x a IH]; intros H.
  - rewrite app_nil. simpl. rewrite Ascii.eqb_refl. reflexivity.
  - rewrite occurs_char in H. destruct (Ascii.eqb sep x) eqn:Hx; [discriminate|].
    change (String x a ++ String sep b)%string with (String x (a ++ String sep b)).
    cbn [Str.split]. rewrite Ascii.eqb_sym, Hx, (IH H). reflexivity.
Qed.

Lemma split_cons (sep : ascii) (s : string) :
  exists h t, Str.split sep s = h :: t.
Proof.
  destruct s as [|c r]; simpl; [eauto|].
  destruct (Ascii.eqb c sep); [eauto|].
  destruct (Str.split sep r); eauto.
Qed.

Lemma split_app (sep : ascii) (a b : string) :
  Str.split sep (a ++ String sep b) = Str.split sep a ++ Str.split sep b.
Proof.
  induction a as [|x a IH].
  - rewrite app_nil. simpl. rewrite Ascii.eqb_refl. reflexivity.
  - change (String x a ++ String sep b)%string with (String x (a ++ String sep b)).
    cbn [Str.split]. rewrite IH.
    destruct (Ascii.eqb x sep); [reflexivity|].
    destruct (split_cons sep a) as (h & t & ->). reflexivity.
Qed.

Lemma split_whole (sep : ascii) (a : string) :
  Str.occurs (String sep EmptyString) a = false -> Str.split sep a = [a].
Proof.
  induction a as [|x a IH]; intros H; [reflexivity|].
  rewrite occurs_char in H. destruct (Ascii.eqb sep x) eqn:Hx; [discriminate|].
  cbn [Str.split]. rewrite Ascii.eqb_sym, Hx, (IH H). reflexivity.
Qed.

Lemma split_head (sep : ascii) (s : string) :
  exists first rest,
    Str.split sep s = first :: rest
    /\ Str.occurs (String sep EmptyString) first = false
    /\ match s, first with
       | String c _, String x _ => x = c
       | _, _ => True
       end.
Proof.
  induction s as [|c r (first & rest & Heq & Hno & _)].
  - exists EmptyString, []. repeat split; reflexivity.
  - cbn [Str.split]. destruct (Ascii.eqb c sep) eqn:Hc.
    + exists EmptyString, (Str.split sep r). repeat split; reflexivity.
    + rewrite Heq. exists (String c first), rest. repeat split.
      rewrite occurs_char, Ascii.eqb_sym, Hc. exact Hno.
Qed.

(** Joining what was split gives the text back. *)
Lemma join_split (sep : ascii) (s : string) :
  Str.join (String sep EmptyString) (Str.split sep s) = s.
Proof.
  unfold Str.join. induction s as [|c r IH]; [reflexivity|].
  cbn [Str.split]. destruct (split_cons sep r) as (h & t & Hs).
  rewrite Hs in *. destruct (Ascii.eqb_spec c sep) as [->|Hne].
  - change (String.concat (String sep EmptyString) (EmptyString :: h :: t))
      with (EmptyString ++ String sep EmptyString
            ++ String.concat (String sep EmptyString) (h :: t))%string.
    rewrite IH. reflexivity.
  - rewrite <- IH. destruct t as [|h' t']; reflexivity.
Qed.

Lemma trimStart_head (s : string) (c : ascii) (r : string) :
  Str.trimStart s = String c r -> Str.is_space c = false.
Proof.
  induction s as [|x s IH]; simpl; [discriminate|].
  destruct (Str.is_space x) eqn:Hx; [exact IH|].
  intros H. inversion H; subst. exact Hx.
Qed.

Lemma startsWith_cons (p : ascii) (c : ascii) (r : string) :
  Str.startsWith (String p EmptyString) (String c r) = Ascii.eqb p c.
Proof. unfold Str.startsWith. simpl. destruct (Ascii.eqb p c); reflexivity. Qed.

(** What a line [key=value] is trimmed to. *)
Lemma trim_assignment (key value : string) :
  Str.trim (key ++ String "=" value) =
  (Str.trimStart key ++ String "=" (Str.trimEnd value))%string.
Proof.
  unfold Str.trim. rewrite trimStart_app by reflexivity.
  rewrite trimEnd_app; rewrite (trimEnd_cons "=" value) by reflexivity;
    [reflexivity|discriminate].
Qed.

Lemma assignment_kept (key value : string) :
  Str.startsWith "#" (Str.trim key) = false ->
  negb (String.eqb (Str.trim (key ++ String "=" value)) EmptyString)
  && negb (Str.startsWith "#" (Str.trim (key ++ String "=" value))) = true.
Proof.
  intros Hhash. rewrite trim_assignment.
  assert (Hfilled : String.eqb (Str.trimStart key ++ String "=" (Str.trimEnd value))
                      EmptyString = false).
  { destruct (Str.trimStart key); reflexivity. }
  assert (Hline : Str.startsWith "#"
                    (Str.trimStart key ++ String "=" (Str.trimEnd value)) = false).
  { unfold Str.trim in Hhash.
    destruct (Str.trimStart key) as [|c r] eqn:Hk; [reflexivity|].
    rewrite (trimEnd_cons c r (trimStart_head _ _ _ Hk)) in Hhash.
    rewrite app_cons. rewrite startsWith_cons in *. exact Hhash. }
  rewrite Hfilled, Hline. reflexivity.
Qed.

Lemma assignment_parts (key value : string) :
  Str.occurs "=" key = false ->
  Str.split "=" (Str.trim (key ++ String "=" value)) =
  Str.trimStart key :: Str.split "=" (Str.trimEnd value).
Proof.
  intros Hkey. rewrite trim_assignment.
  apply split_first, occurs_char_trimStart, Hkey.
Qed.

Lemma trim_trimStart (s : string) : Str.trim (Str.trimStart s) = Str.trim s.
Proof. unfold Str.trim. rewrite trimStart_idem. reflexivity. Qed.

Lemma trim_trimEnd (s : string) : Str.trim (Str.trimEnd s) = Str.trim s.
Proof. unfold Str.trim. rewrite trim_commute, trimEnd_idem. reflexivity. Qed.

(** ** One line of the source *)

(** X7.  A line is split at its first equals sign: what stands before it,
    trimmed, is the key, and all that stands after it, equals signs
    included, trimmed, is the value, unless the key starts with [#]. *)
Theorem line_assigns (env : gmap string string) (key value : string) :
  Str.occurs "=" key = false ->
  Str.startsWith "#" (Str.trim key) = false ->
  env_line env (key ++ "=" ++ value) =
  env_set (Str.trim key) (Str.trim value) env.
Proof.
  intros Hkey Hhash. unfold env_line.
  change (key ++ "=" ++ value)%string with (key ++ String "=" value)%string.
  rewrite (assignment_kept key value Hhash), (assignment_parts key value Hkey).
  rewrite (join_split "="), trim_trimStart, trim_trimEnd. reflexivity.
Qed.

Lemma line_assigns_witness :
  env_line ∅ "  HUBSPOT_MCP_URL = https://h.example/mcp?a=b&c=d  " =
  <["HUBSPOT_MCP_URL" := "https://h.example/mcp?a=b&c=d"]> ∅.
Proof.
  apply (line_assigns ∅ "  HUBSPOT_MCP_URL " " https://h.example/mcp?a=b&c=d  ");
    reflexivity.
Defined.

(** ** The whole source *)

Lemma split_lines (ls : list string) :
  forallb one_line ls = true -> ls <> [] ->
  Str.split "010" (lines_of ls) = ls.
Proof.
  unfold lines_of. induction ls as [|l ls IH]; intros Hone Hne; [congruence|].
  simpl in Hone. apply andb_prop in Hone. destruct Hone as [Hl Hls].
  unfold one_line in Hl. apply negb_true_iff in Hl.
  destruct ls as [|l' ls'].
  - simpl. apply split_whole, Hl.
  - change (String.concat (String "010" EmptyString) (l :: l' :: ls'))
      with (l ++ String "010"
                   (String.concat (String "010" EmptyString) (l' :: ls')))%string.
    rewrite (split_first "010" _ _ Hl), IH; [reflexivity|exact Hls|discriminate].
Qed.

(** The source is read line by line, from the first to the last. *)
Lemma parse_env_lines (ls : list string) :
  forallb one_line ls = true ->
  parse_env (lines_of ls) = fold_left env_line ls ∅.
Proof.
  intros Hone. unfold parse_env. destruct ls as [|l ls]; [reflexivity|].
  rewrite split_lines; [reflexivity|exact Hone|discriminate].
Qed.

(** X8.  Blank lines and lines whose first character that is not white
    space is [#] are ignored wherever they stand: the source with such a
    line and the source without it give the same parameters. *)
Theorem comment_lines_are_ignored (before after : list string) (c : string) :
  forallb one_line (before ++ c :: after) = true ->
  Str.trim c = EmptyString \/ Str.startsWith "#" (Str.trim c) = true ->
  parse_env (lines_of (before ++ c :: after)) =
  parse_env (lines_of (before ++ after)).
Proof.
  intros Hone Hc.
  assert (Hone' : forallb one_line (before ++ after) = true).
  { rewrite forallb_app in *. simpl in Hone.
    apply andb_prop in Hone. destruct Hone as [Hb Hca].
    apply andb_prop in Hca. destruct Hca as [_ Ha]. rewrite Hb, Ha. reflexivity. }
  rewrite (parse_env_lines _ Hone), (parse_env_lines _ Hone').
  rewrite !fold_left_app. simpl. f_equal.
  unfold env_line. destruct Hc as [-> | ->]; [reflexivity|].
  rewrite andb_false_r. reflexivity.
Qed.

Lemma comment_lines_are_ignored_witness :
  parse_env (lines_of ["DEBUG=true"; "  # DEBUG=false"; "   "; "INSTALL_DIR=/srv"]) =
  parse_env (lines_of ["DEBUG=true"; "   "; "INSTALL_DIR=/srv"]).
Proof.
  apply (comment_lines_are_ignored ["DEBUG=true"] ["   "; "INSTALL_DIR=/srv"]
           "  # DEBUG=false"); [reflexivity|]. right. reflexivity.
Defined.

(** X9.  The last line that assigns a key decides its value: after a
    source, one more line [key=value] gives the key the trimmed value and
    leaves every other key as the source had it. *)
Theorem last_assignment_wins (ls : list string) (key value : string) :
  forallb one_line (ls ++ [(key ++ "=" ++ value)%string]) = true ->
  Str.occurs "=" key = false ->
  Str.startsWith "#" (Str.trim key) = false ->
  Str.trim key <> "__proto__" ->
  let env := parse_env (lines_of (ls ++ [(key ++ "=" ++ value)%string])) in
  env !! Str.trim key = Some (Str.trim value)
  /\ (forall k, k <> Str.trim key -> env !! k = parse_env (lines_of ls) !! k).
Proof.
  intros Hone Hkey Hhash Hproto env.
  assert (Hone' : forallb one_line ls = true).
  { rewrite forallb_app in Hone. apply andb_prop in Hone. tauto. }
  assert (Henv : env = <[Str.trim key := Str.trim value]> (parse_env (lines_of ls))).
  { unfold env. rewrite (parse_env_lines _ Hone), (parse_env_lines _ Hone').
    rewrite fold_left_app. cbn [fold_left].
    unfold env_line.
    change (key ++ "=" ++ value)%string with (key ++ String "=" value)%string.
    rewrite (assignment_kept key value Hhash), (assignment_parts key value Hkey).
    rewrite (join_split "="), trim_trimStart, trim_trimEnd.
    unfold env_set. apply String.eqb_neq in Hproto. rewrite Hproto. reflexivity. }
  rewrite Henv. split.
  - apply lookup_insert_eq.
  - intros k Hk. apply lookup_insert_ne. congruence.
Qed.

Lemma last_assignment_wins_witness :
  let env := parse_env (lines_of ["DEBUG=true"; "INSTALL_DIR=/srv"; "DEBUG = false "]) in
  env !! "DEBUG" = Some "false" /\ env !! "INSTALL_DIR" = Some "/srv".
Proof.
  intros env.
  destruct (last_assignment_wins ["DEBUG=true"; "INSTALL_DIR=/srv"] "DEBUG " " false ")
    as [Hlast Hother]; [reflexivity | reflexivity | reflexivity | discriminate |].
  split; [exact Hlast|].
  change env with (parse_env (lines_of (["DEBUG=true"; "INSTALL_DIR=/srv"]
                                        ++ [("DEBUG " ++ "=" ++ " false ")%string]))).
  rewrite (Hother "INSTALL_DIR") by discriminate.
  vm_compute. reflexivity.
Defined.

(** X10.  Whatever the source holds, the keys and values read from it are
    trimmed, no key has an equals sign in it or starts with [#], and
    [__proto__] is never a key. *)
Theorem parsed_keys_and_values (envContent k v : string) :
  parse_env envContent !! k = Some v ->
  Str.trim k = k /\ Str.trim v = v
  /\ Str.occurs "=" k = false
  /\ Str.startsWith "#" k = false
  /\ k <> "__proto__".
Proof.
  unfold parse_env.
  set (good := fun (k v : string) =>
                 Str.trim k = k /\ Str.trim v = v
                 /\ Str.occurs "=" k = false
                 /\ Str.startsWith "#" k = false
                 /\ k <> "__proto__").
  assert (Hstep : forall (env : gmap string string) line,
             (forall k v, env !! k = Some v -> good k v) ->
             forall k v, env_line env line !! k = Some v -> good k v).
  { intros env line Henv k' v'. unfold env_line.
    destruct (negb (String.eqb (Str.trim line) EmptyString)
              && negb (Str.startsWith "#" (Str.trim line))) eqn:Hkeep;
      [|apply Henv].
    apply andb_prop in Hkeep. destruct Hkeep as [Hfilled Hhash].
    apply negb_true_iff in Hfilled, Hhash.
    destruct (split_head "=" (Str.trim line)) as (first & rest & -> & Hno & Hhead).
    unfold env_set. destruct (String.eqb_spec (Str.trim first) "__proto__") as [_|Hp];
      [apply Henv|].
    destruct (decide (Str.trim first = k')) as [<-|Hne].
    - rewrite lookup_insert_eq. intros Hv. inversion Hv; subst. clear Hv.
      repeat split.
      + apply trim_idem.
      + apply trim_idem.
      + apply occurs_char_trimEnd, occurs_char_trimStart, Hno.
      + destruct (Str.trim line) as [|c r] eqn:Hline; [discriminate|].
        destruct first as [|x f]; [reflexivity|]. subst x.
        pose proof (trim_head _ _ _ Hline) as Hc.
        unfold Str.trim. simpl Str.trimStart. rewrite Hc.
        rewrite (trimEnd_cons c f Hc). rewrite startsWith_cons in *. exact Hhash.
      + exact Hp.
    - rewrite lookup_insert_ne by exact Hne. apply Henv. }
  assert (Hfold : forall lines (env : gmap string string),
             (forall k v, env !! k = Some v -> good k v) ->
             forall k v, fold_left env_line lines env !! k = Some v -> good k v).
  { induction lines as [|line lines IH]; intros env Henv; [exact Henv|].
    simpl. apply IH. apply Hstep, Henv. }
  apply Hfold. intros k' v' H. rewrite lookup_empty in H. discriminate.
Qed.

Lemma parsed_keys_and_values_witness :
  let env := parse_env (lines_of ["#x=1"; " HOME = A=B "; "__proto__=p"; "=="]) in
  env !! "HOME" = Some "A=B"
  /\ Str.trim "A=B" = "A=B" /\ Str.occurs "=" "HOME" = false.
Proof.
  intros env.
  assert (Hhome : env !! "HOME" = Some "A=B") by (vm_compute; reflexivity).
  destruct (parsed_keys_and_values
              (lines_of ["#x=1"; " HOME = A=B "; "__proto__=p"; "=="])
              "HOME" "A=B" Hhome) as (_ & Hv & Heq & _).
  split; [exact Hhome|]. split; [exact Hv | exact Heq].
Defined.

(** * Further properties of rendering *)

(** ** Escaping a path *)

Lemma escape_from (before s : string) :
  Str.replace_from "\" "\\" before 0 s = double_backslashes s.
Proof.
  revert before. induction s as [|c r IH]; intros before; [reflexivity|].
  cbn [Str.replace_from double_backslashes Str.strip_prefix].
  destruct (Ascii.eqb_spec "\"%char c) as [<-|Hne].
  - simpl. rewrite IH. reflexivity.
  - rewrite Ascii.eqb_sym. apply Ascii.eqb_neq in Hne. rewrite Hne, IH. reflexivity.
Qed.

(** X11.  Escaping a path doubles each backslash and changes nothing
    else; read back as the body of a JSON string, the escaped path is the
    path again, provided it has no double quote and no control character
    in it. *)
Theorem escape_backslashes_round_trip (p rest : string) :
  escape_backslashes p = double_backslashes p
  /\ (path_text p = true ->
      JsonText.string_body
        (escape_backslashes p ++ String JsonText.quote_char rest) =
      Some (p, rest)).
Proof.
  assert (Hesc : escape_backslashes p = double_backslashes p).
  { unfold escape_backslashes, Str.replaceAll. apply escape_from. }
  split; [exact Hesc|]. rewrite Hesc. clear Hesc.
  induction p as [|c r IH]; intros Hp.
  - rewrite app_nil. reflexivity.
  - simpl in Hp. apply andb_prop in Hp. destruct Hp as [Hc Hr].
    unfold path_char in Hc. apply andb_prop in Hc. destruct Hc as [Hq Hn].
    apply negb_true_iff in Hq. specialize (IH Hr).
    cbn [double_backslashes].
    destruct (Ascii.eqb_spec c "\"%char) as [->|Hne].
    + rewrite !app_cons. cbn [JsonText.string_body].
      rewrite Hq, Ascii.eqb_refl, IH. reflexivity.
    + rewrite app_cons. cbn [JsonText.string_body]. rewrite Hq.
      apply Ascii.eqb_neq in Hne. rewrite Hne.
      apply N.leb_le in Hn. apply N.ltb_ge in Hn. rewrite Hn, IH. reflexivity.
Qed.

Lemma escape_backslashes_round_trip_witness :
  JsonText.string_body
    (escape_backslashes "C:\Users\ada" ++ String JsonText.quote_char "]")%string =
  Some ("C:\Users\ada", "]").
Proof.
  apply (proj2 (escape_backslashes_round_trip "C:\Users\ada" "]")). reflexivity.
Defined.

(** ** Replacing a token *)

Lemma app_assoc_s (a b c : string) : ((a ++ b) ++ c)%string = (a ++ b ++ c)%string.
Proof.
  induction a as [|x a IH]; [reflexivity|]. rewrite !app_cons, IH. reflexivity.
Qed.

Lemma may_start_strip (tok y s : string) :
  may_start tok y = false -> Str.strip_prefix tok (y ++ s) = None.
Proof.
  revert y. induction tok as [|c t IH]; intros y H; [discriminate|].
  destruct y as [|x y]; [discriminate|]. rewrite app_cons. simpl in *.
  destruct (Ascii.eqb c x); [apply IH, H|reflexivity].
Qed.

Lemma may_start_app (tok y s : string) :
  may_start tok y = false -> may_start tok (y ++ s) = false.
Proof.
  revert y. induction tok as [|c t IH]; intros y H; [discriminate|].
  destruct y as [|x y]; [discriminate|]. rewrite app_cons. simpl in *.
  destruct (Ascii.eqb c x); [apply IH, H|reflexivity].
Qed.

Lemma inert_app (tok a x : string) :
  inert tok a = true -> inert tok x = true -> inert tok (a ++ x) = true.
Proof.
  intros Ha Hx. induction a as [|c a IH]; [exact Hx|].
  cbn [inert] in Ha. apply andb_prop in Ha. destruct Ha as [Hc Ha].
  apply negb_true_iff in Hc. rewrite app_cons. cbn [inert].
  rewrite <- app_cons, (may_start_app _ _ x Hc), (IH Ha). reflexivity.
Qed.

(** The scan passes over a text in which no occurrence starts. *)
Lemma replace_from_inert (tok repl pre s : string) :
  inert tok pre = true ->
  forall before,
    Str.replace_from tok repl before 0 (pre ++ s) =
    (pre ++ Str.replace_from tok repl (before ++ pre) 0 s)%string.
Proof.
  induction pre as [|c r IH]; intros Hin before.
  - rewrite !app_nil. assert (Hb : (before ++ EmptyString)%string = before).
    { clear. induction before as [|x b IHb]; [reflexivity|].
      rewrite app_cons, IHb. reflexivity. }
    rewrite Hb. reflexivity.
  - cbn [inert] in Hin. apply andb_prop in Hin. destruct Hin as [Hc Hr].
    apply negb_true_iff in Hc.
    pose proof (may_start_strip tok (String c r) s Hc) as Hnone.
    rewrite app_cons in *. cbn [Str.replace_from]. rewrite Hnone.
    rewrite (IH Hr), <- app_cons_assoc. reflexivity.
Qed.

Lemma expand_plain (v matched before after : string) :
  Str.occurs "$" v = false -> Str.expand v matched before after = v.
Proof.
  induction v as [|c r IH]; intros H; [reflexivity|].
  rewrite occurs_char in H. destruct (Ascii.eqb "$" c) eqn:Hc; [discriminate|].
  cbn [Str.expand]. rewrite Ascii.eqb_sym, Hc, (IH H). reflexivity.
Qed.

(** For a replacement without a dollar sign, what has been passed does
    not matter. *)
Lemma replace_from_plain (tok v s : string) :
  Str.occurs "$" v = false ->
  forall k before before',
    Str.replace_from tok v before k s = Str.replace_from tok v before' k s.
Proof.
  intros Hv. induction s as [|c r IH]; intros k before before'; [reflexivity|].
  cbn [Str.replace_from]. destruct k as [|k]; [|apply IH].
  destruct (Str.strip_prefix tok (String c r)).
  - rewrite !(expand_plain v _ _ _ Hv). f_equal. apply IH.
  - f_equal. apply IH.
Qed.

Lemma strip_prefix_app (tok s : string) : Str.strip_prefix tok (tok ++ s) = Some s.
Proof.
  induction tok as [|c t IH]; [reflexivity|].
  rewrite app_cons. simpl. rewrite Ascii.eqb_refl. exact IH.
Qed.

Lemma replace_from_skip (tok repl x s : string) :
  forall before,
    Str.replace_from tok repl before (String.length x) (x ++ s) =
    Str.replace_from tok repl (before ++ x) 0 s.
Proof.
  induction x as [|c x IH]; intros before.
  - rewrite app_nil. simpl String.length.
    assert (Hb : (before ++ EmptyString)%string = before).
    { clear. induction before as [|y b IHb]; [reflexivity|].
      rewrite app_cons, IHb. reflexivity. }
    rewrite Hb. reflexivity.
  - rewrite app_cons. cbn [String.length Str.replace_from].
    rewrite IH, <- app_cons_assoc. reflexivity.
Qed.

(** Step one: the scan passes over [pre]. *)
Lemma replaceAll_pass (tok v pre s : string) :
  Str.occurs "$" v = false -> inert tok pre = true ->
  Str.replaceAll tok v (pre ++ s) = (pre ++ Str.replaceAll tok v s)%string.
Proof.
  intros Hv Hin. unfold Str.replaceAll. destruct tok as [|c t].
  - destruct pre; [reflexivity|discriminate].
  - rewrite (replace_from_inert _ _ _ _ Hin).
    rewrite (replace_from_plain _ _ _ Hv 0 _ EmptyString). reflexivity.
Qed.

(** Step two: the token itself is replaced, and the scan goes on after it. *)
Lemma replaceAll_hit (tok v s : string) :
  Str.occurs "$" v = false -> tok <> EmptyString ->
  Str.replaceAll tok v (tok ++ s) = (v ++ Str.replaceAll tok v s)%string.
Proof.
  intros Hv Hne. unfold Str.replaceAll. destruct tok as [|c t]; [congruence|].
  rewrite app_cons. cbn [Str.replace_from]. rewrite <- app_cons.
  rewrite strip_prefix_app, (expand_plain v _ _ _ Hv).
  replace (String.length (String c t) - 1) with (String.length t)
    by (simpl; lia).
  rewrite replace_from_skip.
  rewrite (replace_from_plain _ _ _ Hv 0 _ EmptyString). reflexivity.
Qed.

Lemma occurs_app_r (c : ascii) (a b : string) :
  Str.occurs (String c EmptyString) (a ++ b) = false ->
  Str.occurs (String c EmptyString) a = false.
Proof.
  induction a as [|x a IH]; [reflexivity|]. rewrite app_cons, !occurs_char.
  destruct (Ascii.eqb c x); [discriminate|exact IH].
Qed.

(** A text without a brace is inert for a token that starts with one. *)
Lemma inert_plain (t v : string) :
  Str.occurs "{" v = false -> inert (String "{" t) v = true.
Proof.
  induction v as [|c r IH]; intros H; [reflexivity|].
  rewrite occurs_char in H. destruct (Ascii.eqb "{" c) eqn:Hc; [discriminate|].
  cbn [inert may_start]. rewrite Hc, (IH H). reflexivity.
Qed.

(** So is a text without two braces in a row that does not end with one. *)
Lemma inert_text (t a : string) :
  Str.occurs "{{" (a ++ "{") = false -> inert (String "{" (String "{" t)) a = true.
Proof.
  induction a as [|c r IH]; intros H; [reflexivity|].
  rewrite app_cons, occurs_cons in H.
  destruct (Str.strip_prefix "{{" (String c (r ++ "{"))) eqn:Hs; [discriminate|].
  cbn [inert]. rewrite (IH H), andb_true_r. apply negb_true_iff.
  cbn [may_start]. destruct (Ascii.eqb "{" c) eqn:Hc; [|reflexivity].
  cbn [Str.strip_prefix] in Hs. rewrite Hc in Hs.
  destruct r as [|x r]; [discriminate|].
  rewrite app_cons in Hs. cbn [Str.strip_prefix] in Hs. cbn [may_start].
  destruct (Ascii.eqb "{" x); [discriminate|reflexivity].
Qed.

(** ** The chain of replacements *)

Lemma tokens_shape (tok : string) :
  In tok tokens -> exists t, tok = String "{" (String "{" t).
Proof.
  intros Hin. simpl in Hin.
  repeat (destruct Hin as [<-|Hin]; [eexists; reflexivity|]). destruct Hin.
Qed.

(** No token starts inside another. *)
Lemma tokens_apart (t1 t2 : string) :
  In t1 tokens -> In t2 tokens -> t1 <> t2 -> inert t1 t2 = true.
Proof.
  intros H1 H2 Hne.
  assert (Hall : forallb (fun a => forallb (fun b => String.eqb a b || inert a b) tokens)
                   tokens = true) by (vm_compute; reflexivity).
  rewrite forallb_forall in Hall. specialize (Hall t1 H1).
  rewrite forallb_forall in Hall. specialize (Hall t2 H2).
  apply String.eqb_neq in Hne. rewrite Hne in Hall. exact Hall.
Qed.

Lemma tokens_NoDup : List.NoDup tokens.
Proof.
  unfold tokens. repeat constructor; simpl; intuition discriminate.
Qed.

(** A chain of replacements passes over a text that is inert for each of
    its tokens. *)
Lemma chain_pass (subs : list (string * string)) (pre : string) :
  (forall tv, In tv subs ->
              Str.occurs "$" (snd tv) = false /\ inert (fst tv) pre = true) ->
  forall s : string,
    fold_left (fun text '(tok, value) => Str.replaceAll tok value text) subs
      (pre ++ s)%string =
    (pre ++ fold_left (fun text '(tok, value) => Str.replaceAll tok value text)
              subs s)%string.
Proof.
  induction subs as [|[tok v] subs IH]; intros Hall s; [reflexivity|].
  destruct (Hall (tok, v) (or_introl eq_refl)) as [Hv Hin].
  cbn [fold_left]. rewrite (replaceAll_pass tok v pre s Hv Hin).
  apply IH. intros tv Htv. apply Hall. right. exact Htv.
Qed.

Lemma occurs_prefix (p q s : string) :
  Str.occurs p s = false -> Str.occurs (p ++ q) s = false.
Proof.
  assert (Hstrip : forall s', Str.strip_prefix p s' = None ->
                              Str.strip_prefix (p ++ q) s' = None).
  { induction p as [|c p IHp]; intros s' H; [discriminate|].
    rewrite app_cons. destruct s' as [|x s']; [reflexivity|]. simpl in *.
    destruct (Ascii.eqb c x); [apply IHp, H|reflexivity]. }
  induction s as [|x s IH]; intros H.
  - simpl in *. destruct (Str.strip_prefix p EmptyString) eqn:Hp; [discriminate|].
    rewrite (Hstrip _ Hp). reflexivity.
  - rewrite occurs_cons in *.
    destruct (Str.strip_prefix p (String x s)) eqn:Hp; [discriminate|].
    rewrite (Hstrip _ Hp). apply IH, H.
Qed.

(** X12.  With values that hold no dollar sign, rendering works from left
    to right through the template: a placeholder that follows a text
    without two braces in a row (and not ending with a brace) is replaced
    with its value, if that has no brace in it, the text before it is
    kept, and what follows is rendered in the same way; a text without
    two braces in a row is left as it is. *)
Theorem render_placeholder (p : params) (tok v a b : string) :
  (forall tv, In tv (substitutions p) -> Str.occurs "$" (snd tv) = false) ->
  (In (tok, v) (substitutions p) ->
   Str.occurs "{" v = false ->
   Str.occurs "{{" (a ++ "{") = false ->
   render p (a ++ tok ++ b) = (a ++ v ++ render p b)%string)
  /\ (Str.occurs "{{" b = false -> render p b = b).
Proof.
  intros Hplain. split.
  - intros Hin Hv Ha. unfold render.
    destruct (in_split _ _ Hin) as (l1 & l2 & Hsplit).
    pose proof tokens_NoDup as Hnd.
    change tokens with (map fst (substitutions p)) in Hnd.
    rewrite Hsplit in Hplain, Hnd |- *.
    assert (Hother : forall tv, In tv l1 \/ In tv l2 ->
                                In (fst tv) tokens /\ fst tv <> tok).
    { intros tv Htv. split.
      - apply (substitutions_tokens p). rewrite Hsplit.
        apply in_or_app. destruct Htv; [left|right; right]; assumption.
      - rewrite map_app in Hnd. cbn [map fst] in Hnd.
        apply NoDup_remove_2 in Hnd. intros Heq. apply Hnd.
        rewrite <- Heq, <- map_app. apply in_map, in_or_app. exact Htv. }
    assert (Htok : In tok tokens).
    { apply (substitutions_tokens p (tok, v)), Hin. }
    destruct (tokens_shape tok Htok) as [t Ht].
    assert (Hinert_a : forall tok', In tok' tokens -> inert tok' a = true).
    { intros tok' H'. destruct (tokens_shape tok' H') as [t' ->].
      apply inert_text, Ha. }
    rewrite !fold_left_app. cbn [fold_left].
    rewrite <- app_assoc_s, (chain_pass l1 (a ++ tok)), app_assoc_s.
    + rewrite (replaceAll_pass tok v a).
      * rewrite (replaceAll_hit tok v).
        -- rewrite <- app_assoc_s, (chain_pass l2 (a ++ v)), app_assoc_s;
             [reflexivity|].
           intros tv Htv. split.
           ++ apply Hplain, in_or_app. right. right. exact Htv.
           ++ destruct (Hother tv (or_intror Htv)) as [H' _].
              apply inert_app; [apply Hinert_a, H'|].
              destruct (tokens_shape _ H') as [t' ->]. apply inert_plain, Hv.
        -- apply (Hplain (tok, v)), in_or_app. right. left. reflexivity.
        -- rewrite Ht. discriminate.
      * apply (Hplain (tok, v)), in_or_app. right. left. reflexivity.
      * apply Hinert_a, Htok.
    + intros tv Htv. split.
      * apply Hplain, in_or_app. left. exact Htv.
      * destruct (Hother tv (or_introl Htv)) as [H' Hne].
        apply inert_app; [apply Hinert_a, H'|].
        apply tokens_apart; assumption.
  - intros Hb. unfold render.
    pose proof (substitutions_tokens p) as Hsubs.
    induction (substitutions p) as [|[tok' v'] subs IH]; [reflexivity|].
    cbn [fold_left]. rewrite replaceAll_absent.
    + apply IH.
      * intros tv Htv. apply Hplain. right. exact Htv.
      * intros tv Htv. apply Hsubs. right. exact Htv.
    + destruct (tokens_shape tok' (Hsubs (tok', v') (or_introl eq_refl))) as [t ->].
      apply (occurs_prefix "{{" t b Hb).
Qed.

Lemma render_placeholder_witness :
  let p := resolve (Sample.linux [] Sample.nothing_readonly) (parse_env "DEBUG=true") in
  render p (Str.dq "{'env':{'DEBUG':'{{DEBUG}}','URL':'{{ASANA_MCP_URL}}'}}") =
  Str.dq "{'env':{'DEBUG':'true','URL':'https://asana-mcp-railway-production.up.railway.app/sse'}}".
Proof.
  intros p.
  assert (Hplain : forall tv, In tv (substitutions p) -> Str.occurs "$" (snd tv) = false).
  { intros tv Hin. simpl in Hin.
    repeat (destruct Hin as [<-|Hin]; [vm_compute; reflexivity|]). destruct Hin. }
  destruct (render_placeholder p "{{DEBUG}}" "true" (Str.dq "{'env':{'DEBUG':'")
              (Str.dq "','URL':'" ++ "{{ASANA_MCP_URL}}" ++ Str.dq "'}}")%string
              Hplain) as [Hfirst _].
  destruct (render_placeholder p "{{ASANA_MCP_URL}}"
              "https://asana-mcp-railway-production.up.railway.app/sse"
              (Str.dq "','URL':'") (Str.dq "'}}") Hplain) as [Hsecond Hrest].
  change (Str.dq "{'env':{'DEBUG':'{{DEBUG}}','URL':'{{ASANA_MCP_URL}}'}}")
    with (Str.dq "{'env':{'DEBUG':'" ++ "{{DEBUG}}"
          ++ Str.dq "','URL':'" ++ "{{ASANA_MCP_URL}}" ++ Str.dq "'}}")%string.
  rewrite Hfirst; [|vm_compute; tauto|reflexivity|reflexivity].
  rewrite Hsecond; [|vm_compute; tauto|reflexivity|reflexivity].
  rewrite Hrest; [|reflexivity]. reflexivity.
Defined.

(** ** C9: rendering twice, amended *)


(** One placeholder in a chain of replacements whose tokens are all
    different: the text before it is kept, the token gives way to its
    value, and the chain goes on with what follows. *)
Lemma chain_step (subs : list (string * string)) (tok v a b : string) :
  (forall tv, In tv subs ->
              Str.occurs "$" (snd tv) = false /\ In (fst tv) tokens) ->
  List.NoDup (map fst subs) ->
  In (tok, v) subs ->
  Str.occurs "{" v = false ->
  Str.occurs "{{" (a ++ "{") = false ->
  fold_left (fun text '(tok, value) => Str.replaceAll tok value text) subs
    (a ++ tok ++ b)%string =
  (a ++ v ++ fold_left (fun text '(tok, value) => Str.replaceAll tok value text)
                 subs b)%string.
Proof.
  intros Hsubs Hnd Hin Hv Ha.
  destruct (in_split _ _ Hin) as (l1 & l2 & ->).
  assert (Hother : forall tv, In tv l1 \/ In tv l2 -> fst tv <> tok).
  { intros tv Htv Heq. rewrite map_app in Hnd. cbn [map fst] in Hnd.
    apply NoDup_remove_2 in Hnd. apply Hnd.
    rewrite <- Heq, <- map_app. apply in_map, in_or_app. exact Htv. }
  assert (Hmid : In (tok, v) (l1 ++ (tok, v) :: l2))
    by (apply in_or_app; right; left; reflexivity).
  destruct (Hsubs _ Hmid) as [Hplain Htok]. cbn [fst snd] in Hplain, Htok.
  assert (Hinert_a : forall tok', In tok' tokens -> inert tok' a = true).
  { intros tok' H'. destruct (tokens_shape tok' H') as [t' ->].
    apply inert_text, Ha. }
  rewrite !fold_left_app. cbn [fold_left].
  rewrite <- app_assoc_s, (chain_pass l1 (a ++ tok)), app_assoc_s.
  - rewrite (replaceAll_pass tok v a _ Hplain (Hinert_a _ Htok)).
    rewrite (replaceAll_hit tok v _ Hplain).
    + rewrite <- app_assoc_s, (chain_pass l2 (a ++ v)), app_assoc_s;
        [reflexivity|].
      intros tv Htv.
      destruct (Hsubs tv) as [Hp Ht];
        [apply in_or_app; right; right; exact Htv|].
      split; [exact Hp|].
      apply inert_app; [apply Hinert_a, Ht|].
      destruct (tokens_shape _ Ht) as [t' ->]. apply inert_plain, Hv.
    + destruct (tokens_shape tok Htok) as [t ->]. discriminate.
  - intros tv Htv.
    destruct (Hsubs tv) as [Hp Ht]; [apply in_or_app; left; exact Htv|].
    split; [exact Hp|].
    apply inert_app; [apply Hinert_a, Ht|].
    apply tokens_apart; [exact Ht | exact Htok | apply Hother; left; exact Htv].
Qed.

(** A text without two opening braces in a row holds no token, and the
    chain leaves it as it is. *)
Lemma chain_plain (subs : list (string * string)) (b : string) :
  (forall tv, In tv subs -> In (fst tv) tokens) ->
  Str.occurs "{{" b = false ->
  fold_left (fun text '(tok, value) => Str.replaceAll tok value text) subs b = b.
Proof.
  intros Hsubs Hb. induction subs as [|[tok v] subs IH]; [reflexivity|].
  cbn [fold_left]. rewrite replaceAll_absent.
  - apply IH. intros tv Htv. apply Hsubs. right. exact Htv.
  - destruct (tokens_shape tok (Hsubs (tok, v) (or_introl eq_refl))) as [t ->].
    apply (occurs_prefix "{{" t b Hb).
Qed.

(** Two opening braces in a row do not come about where a text that does
    not end with a brace meets another text. *)
Lemma no_braces_app (a s : string) :
  Str.occurs "{{" (a ++ "{") = false ->
  Str.occurs "{{" s = false ->
  Str.occurs "{{" (a ++ s) = false.
Proof.
  intros Ha Hs. induction a as [|c r IH]; [exact Hs|].
  rewrite app_cons, occurs_cons in Ha |- *.
  destruct (Str.strip_prefix "{{" (String c (r ++ "{"))) eqn:Hstrip; [discriminate|].
  rewrite (IH Ha).
  cbn [Str.strip_prefix] in Hstrip |- *.
  destruct (Ascii.eqb "{" c); [|reflexivity].
  destruct r as [|x r]; [discriminate|].
  rewrite app_cons in Hstrip |- *. cbn [Str.strip_prefix] in Hstrip |- *.
  destruct (Ascii.eqb "{" x); [discriminate|reflexivity].
Qed.

(** Nor where a text without a brace stands before another. *)
Lemma no_braces_value (v s : string) :
  Str.occurs "{" v = false ->
  Str.occurs "{{" s = false ->
  Str.occurs "{{" (v ++ s) = false.
Proof.
  intros Hv Hs. induction v as [|c r IH]; [exact Hs|].
  rewrite occurs_char in Hv. destruct (Ascii.eqb "{" c) eqn:Hc; [discriminate|].
  rewrite app_cons, occurs_cons. cbn [Str.strip_prefix]. rewrite Hc.
  apply IH, Hv.
Qed.

Lemma chain_value_in (subs : list (string * string)) (tok : string) :
  In tok (map fst subs) -> In (tok, chain_value subs tok) subs.
Proof.
  induction subs as [|[tok' v] subs IH]; intros Hin; [destruct Hin|].
  cbn [chain_value]. destruct (String.eqb_spec tok tok') as [->|Hne].
  - left. reflexivity.
  - right. apply IH. destruct Hin as [Heq|Hin]; [simpl in Heq; congruence|exact Hin].
Qed.

(** C9, amended.  Rendering is idempotent when no resolved value holds
    an opening brace or a dollar sign and every two opening braces in a
    row in the template open one of the eight placeholders, that is, when
    the template is made of placeholders and, between them, of texts
    without two opening braces in a row that do not end with one.  The
    first pass then puts each value in the place of its placeholder, and
    a second pass with the same parameters changes nothing. *)
Theorem render_twice (p : params) (pieces : list (string * string)) (last : string) :
  (forall tv, In tv (substitutions p) ->
              Str.occurs "$" (snd tv) = false /\ Str.occurs "{" (snd tv) = false) ->
  (forall text tok, In (text, tok) pieces ->
                    In tok tokens /\ Str.occurs "{{" (text ++ "{") = false) ->
  Str.occurs "{{" last = false ->
  render p (template_of pieces last) = filled p pieces last
  /\ render p (render p (template_of pieces last)) =
     render p (template_of pieces last).
Proof.
  intros Hvalues Hpieces Hlast.
  assert (Hchain : forall tv, In tv (substitutions p) ->
                              Str.occurs "$" (snd tv) = false /\ In (fst tv) tokens).
  { intros tv Htv. split; [apply Hvalues, Htv|apply (substitutions_tokens p), Htv]. }
  assert (Hnd : List.NoDup (map fst (substitutions p))) by exact tokens_NoDup.
  assert (Hfill : render p (template_of pieces last) = filled p pieces last
                  /\ Str.occurs "{{" (filled p pieces last) = false).
  { induction pieces as [|[text tok] rest IH].
    - split; [|exact Hlast]. unfold render.
      apply chain_plain; [|exact Hlast].
      intros tv Htv. apply (substitutions_tokens p), Htv.
    - destruct (Hpieces text tok (or_introl eq_refl)) as [Htok Htext].
      destruct IH as [IHr IHb].
      { intros text' tok' Hin. apply Hpieces. right. exact Hin. }
      assert (Hin : In (tok, chain_value (substitutions p) tok) (substitutions p)).
      { apply chain_value_in. exact Htok. }
      destruct (Hvalues _ Hin) as [_ Hbrace]. cbn [snd] in Hbrace.
      cbn [template_of filled]. split.
      + unfold render in *.
        rewrite (chain_step _ _ _ _ _ Hchain Hnd Hin Hbrace Htext), IHr.
        reflexivity.
      + apply no_braces_app; [exact Htext|].
        apply no_braces_value; [exact Hbrace | exact IHb]. }
  destruct Hfill as [Hfill Hplain]. split; [exact Hfill|].
  rewrite Hfill. unfold render. apply chain_plain; [|exact Hplain].
  intros tv Htv. apply (substitutions_tokens p), Htv.
Qed.

Lemma render_twice_witness :
  let p := resolve (Sample.linux [] Sample.nothing_readonly) (parse_env "DEBUG=true") in
  render p Sample.template =
  Str.dq "{'mcpServers':{'orchestrator':{'command':'node','args':['/opt/deploy/node_modules/@magicturtle/claude-orchestrator/dist/index.js'],'env':{'DEBUG':'true'}}}}"
  /\ render p (render p Sample.template) = render p Sample.template.
Proof.
  intros p.
  pose (pieces :=
          [(Str.dq "{'mcpServers':{'orchestrator':{'command':'node','args':['",
            "{{ORCHESTRATOR_PATH}}");
           (Str.dq "/dist/index.js'],'env':{'DEBUG':'", "{{DEBUG}}")]).
  assert (Hshape : Sample.template = template_of pieces (Str.dq "'}}}}"))
    by (vm_compute; reflexivity).
  destruct (render_twice p pieces (Str.dq "'}}}}")) as [Hfirst Hsecond].
  - intros tv Hin. simpl in Hin.
    repeat (destruct Hin as [<-|Hin]; [split; vm_compute; reflexivity|]).
    destruct Hin.
  - intros text tok Hin. simpl in Hin.
    repeat (destruct Hin as [Heq|Hin];
            [inversion Heq; subst; split; [simpl; tauto|vm_compute; reflexivity]|]).
    destruct Hin.
  - vm_compute. reflexivity.
  - rewrite Hshape. split; [|exact Hsecond].
    rewrite Hfirst. vm_compute. reflexivity.
Defined.

(** A value with one opening brace is enough to undo this: it joins the
    brace that follows the placeholder, and the second pass finds a
    placeholder that the template did not have. *)
Example value_with_brace_ex :
  let p := resolve (Sample.linux [] Sample.nothing_readonly) (parse_env "DEBUG={") in
  forallb (fun tv => negb (Str.occurs "{{" (snd tv)) && negb (Str.occurs "$" (snd tv)))
    (substitutions p) = true
  /\ render p "{{DEBUG}}{DEBUG}}" = "{{DEBUG}}"
  /\ render p (render p "{{DEBUG}}{DEBUG}}") = "{".
Proof. intros p. split_and!; vm_compute; reflexivity. Qed.

(** ** C6: a key the source does not have, amended *)








(** A dollar sign in a path is read as a replacement pattern: two of them
    leave one. *)
Example path_with_dollars_ex :
  Str.replaceAll "{{ASANA_PROJECT_PATH}}" (escape_backslashes "/home/a$$b")
    "{{ASANA_PROJECT_PATH}}" = "/home/a$b".
Proof. reflexivity. Qed.

(** * The validation script *)

Lemma desktop_check_shape (JSON_parse : string -> string + json) (h : host)
  (path : option string) (c : tally) :
  exists condition message,
    desktop_check JSON_parse h path c = check condition message false c
    /\ (condition = true <->
        exists p text config,
          path = Some p /\ readFile h p = inr text
          /\ JSON_parse text = inr config
          /\ orchestrator_configured config = Some true).
Proof.
  unfold desktop_check.
  destruct path as [p|].
  2:{ eexists false, _. split; [reflexivity|]. split; [discriminate|].
      intros (p & text & config & Hp & _). discriminate. }
  destruct (readFile h p) as [e|text] eqn:Hread.
  { eexists false, _. split; [reflexivity|]. split; [discriminate|].
    intros (p' & text & config & Hp & Hr & _). inversion Hp; subst. congruence. }
  destruct (JSON_parse text) as [msg|config] eqn:Hparse.
  { eexists false, _. split; [reflexivity|]. split; [discriminate|].
    intros (p' & text' & config & Hp & Hr & Hj & _). inversion Hp; subst.
    congruence. }
  destruct (orchestrator_configured config) as [b|] eqn:Hconf.
  - exists b, "Claude Desktop configured with orchestrator". split; [reflexivity|].
    split.
    + intros ->. exists p, text, config. auto.
    + intros (p' & text' & config' & Hp & Hr & Hj & Hc). inversion Hp; subst.
      congruence.
  - eexists false, _. split; [reflexivity|]. split; [discriminate|].
    intros (p' & text' & config' & Hp & Hr & Hj & Hc). inversion Hp; subst.
    congruence.
Qed.

(** X13.  Unless the path of the configuration cannot be formed at all,
    the script always reports five checks, none is skipped after a
    failure, and the number it prints as passed is the number of checks
    that passed: passed, warned and failed add up to five. *)
Theorem validate_reports_five_checks
  (JSON_parse : string -> string + json) (pr : probes) (h : host)
  (path : option string) :
  validate_path h = inr path ->
  let t := fst (validate JSON_parse pr h) in
  length (verdicts t) = 5
  /\ In (RCount Pass (tally_of Pass t)) t
  /\ (tally_of Pass t + tally_of Warn t + tally_of Fail t = 5)%Z
  /\ (In (RCount Warn (tally_of Warn t)) t <-> In Warn (verdicts t))
  /\ (In (RCount Fail (tally_of Fail t)) t <-> In Fail (verdicts t)).
Proof.
  intros Hpath t. unfold t, validate, first_checks. rewrite Hpath.
  destruct (access pr (path_join h (rootDir h) ".env"));
    destruct (access pr (path_join h (rootDir h) "node_modules"));
    destruct (access pr (path_join h (rootDir h)
                           "node_modules/@magicturtle/claude-orchestrator"));
    destruct (claude_cli pr);
    cbn [check negb fst snd app errors warnings];
    match goal with
    | |- context [desktop_check JSON_parse h path ?c] =>
        destruct (desktop_check_shape JSON_parse h path c)
          as (condition & message & -> & _)
    end;
    destruct condition; vm_compute; intuition (discriminate || eauto 12).
Qed.

Lemma validate_reports_five_checks_witness :
  let pr := {| access := fun p => String.eqb p "/opt/deploy/node_modules"; claude_cli := false |} in
  let t := fst (validate JsonText.parse pr (Sample.linux [] Sample.nothing_readonly)) in
  verdicts t = [Warn; Pass; Fail; Warn; Fail] /\ In (RCount Pass 1) t.
Proof.
  intros pr t.
  destruct (validate_reports_five_checks JsonText.parse pr
              (Sample.linux [] Sample.nothing_readonly)
              (Some Sample.target_path) eq_refl) as (_ & Hpassed & _).
  split; [vm_compute; reflexivity | exact Hpassed].
Defined.

(** X14.  The script ends normally exactly when the dependencies and the
    orchestrator package are there and the configuration of the desktop
    application can be read, parses, and has a truthy
    [claude-code-orchestrator] entry under [mcpServers]; whether the
    parameter source exists and whether the command line tool runs play no
    part in it. *)
Theorem validate_exit_status
  (JSON_parse : string -> string + json) (pr : probes) (h : host) :
  snd (validate JSON_parse pr h) = Completed <->
  access pr (path_join h (rootDir h) "node_modules") = true
  /\ access pr (path_join h (rootDir h)
                  "node_modules/@magicturtle/claude-orchestrator") = true
  /\ exists path text config,
       validate_path h = inr (Some path)
       /\ readFile h path = inr text
       /\ JSON_parse text = inr config
       /\ orchestrator_configured config = Some true.
Proof.
  unfold validate, first_checks.
  destruct (validate_path h) as [err|path] eqn:Hpath.
  { destruct (access pr _), (access pr _), (access pr _), (claude_cli pr);
      cbn [check negb fst snd app]; split; try discriminate;
      intros (_ & _ & p & text & config & Hp & _); discriminate. }
  destruct (access pr (path_join h (rootDir h) ".env"));
    destruct (access pr (path_join h (rootDir h) "node_modules"));
    destruct (access pr (path_join h (rootDir h)
                           "node_modules/@magicturtle/claude-orchestrator"));
    destruct (claude_cli pr);
    cbn [check negb fst snd app errors warnings];
    match goal with
    | |- context [desktop_check JSON_parse h path ?c] =>
        destruct (desktop_check_shape JSON_parse h path c)
          as (condition & message & -> & Hcond)
    end;
    destruct condition; cbn; split;
    try discriminate; try (intros (H1 & H2 & _); discriminate);
    try (intros _; split; [reflexivity|split; [reflexivity|]];
         destruct (proj1 Hcond eq_refl) as (p & text & config & -> & Hrest);
         exists p, text, config; split; [reflexivity|exact Hrest]);
    try reflexivity;
    intros (_ & _ & p & text & config & Hp & Hrest); inversion Hp; subst;
    assert (Hc : false = true)
      by (apply Hcond; exists p, text, config; split; [reflexivity|exact Hrest]);
    discriminate.
Qed.

Lemma validate_path_of_install (h : host) (tp : list event) (path : string) :
  getClaudeConfigPath h = (tp, inr path) -> validate_path h = inr (Some path).
Proof.
  unfold getClaudeConfigPath, validate_path.
  destruct (String.eqb (platform h) "darwin");
    [intros H; inversion H; reflexivity|].
  destruct (String.eqb (platform h) "linux");
    [intros H; inversion H; reflexivity|].
  destruct (String.eqb (platform h) "win32"); [|discriminate].
  destruct (env_APPDATA h); [|discriminate]. intros H; inversion H; reflexivity.
Qed.

Lemma written_last (ws : list (string * string * bool)) (path content : string) :
  (forall w, In w ws -> fst (fst w) <> path) ->
  written (ws ++ [(path, content, true)]) path = Some content.
Proof.
  induction ws as [|[[p c] ok] ws IH]; intros Hall; simpl.
  - rewrite String.eqb_refl. reflexivity.
  - rewrite IH; [reflexivity|]. intros w Hin. apply Hall. right. exact Hin.
Qed.

(** X15.  The two scripts agree.  After an installation that completes
    on a target that is an object (or missing), with a rendered document
    that has a truthy [claude-code-orchestrator] entry, the validation
    script reads the file the installer wrote, at the same path, and its
    last check passes, provided the parser reads back what the printer
    wrote for the final document. *)
Theorem validate_after_install
  (JSON_parse : string -> string + json) (JSON_stringify : json -> string)
  (pr : probes) (h : host) (tg tp t0 : list event) (g final entry : json)
  (props : list (string * json)) (path : string) :
  generate JSON_parse h = (tg, inr g) ->
  getClaudeConfigPath h = (tp, inr path) ->
  read_existing JSON_parse h path = (t0, inr (JObj props)) ->
  snd (install JSON_parse JSON_stringify h) = Completed ->
  provider g "claude-code-orchestrator" = Some entry ->
  truthy (Some entry) = true ->
  snd (merge (JObj props) g) = inr final ->
  JSON_parse (JSON_stringify final) = inr final ->
  let h' := after_writes h (writes (fst (install JSON_parse JSON_stringify h))) in
  validate_path h' = inr (Some path)
  /\ readFile h' path = inr (JSON_stringify final)
  /\ In (RCheck Pass "Claude Desktop configured with orchestrator")
       (fst (validate JSON_parse pr h')).
Proof.
  intros Hgen Hpath Hread Hdone Hentry Htruthy Hmerge Hback h'.
  destruct (read_existing_result _ _ _ _ _ Hread) as [-> Hread'].
  assert (Hvpath : validate_path h' = inr (Some path)).
  { apply (validate_path_of_install h' tp). exact Hpath. }
  assert (Hws : exists bs,
             writes (fst (install JSON_parse JSON_stringify h)) =
             bs ++ [(path, JSON_stringify final, true)]
             /\ forall w, In w bs -> fst (fst w) <> path).
  { rewrite install_ending, install_body_result, Hgen, Hpath in Hdone.
    simpl in Hdone. rewrite update_target_result, Hread', Hmerge in Hdone.
    rewrite install_writes, install_body_writes, Hgen, Hpath. simpl.
    rewrite update_target_writes, Hread', Hmerge.
    destruct (mkdir_p h _); [discriminate|].
    destruct (snd (backup JSON_stringify h path (JObj props))) as [e|[]];
      [discriminate|].
    unfold accepted.
    destruct (writeFile h path (JSON_stringify final)); [discriminate|].
    eexists. split; [reflexivity|].
    intros w. rewrite backup_writes. destruct (providers (JObj props)); [intros []|].
    intros [<-|[]]. simpl. apply String.eqb_neq, backup_path_fresh. }
  destruct Hws as (bs & Hws & Hbs).
  assert (Hfile : readFile h' path = inr (JSON_stringify final)).
  { unfold h', after_writes. cbn [readFile]. rewrite Hws, (written_last _ _ _ Hbs).
    reflexivity. }
  assert (Hconf : orchestrator_configured final = Some true).
  { unfold merge in Hmerge. simpl in Hmerge.
    destruct (get_mcpServers g) as [tr [e|r]] eqn:Hg; [discriminate|].
    destruct (get_mcpServers_providers _ _ _ Hg) as [-> Hpr].
    simpl in Hmerge. inversion Hmerge; subst final. clear Hmerge.
    unfold orchestrator_configured. rewrite assoc_define. simpl String.eqb.
    cbn [truthy spread2 orchestrator_entry].
    change (assoc "claude-code-orchestrator"
              (spread (spread [] (assoc "mcpServers" props)) r))
      with (get_own (spread2 (assoc "mcpServers" props) r)
              "claude-code-orchestrator").
    unfold provider in Hentry. rewrite Hpr in Hentry.
    rewrite assoc_spread2, Hentry, Htruthy. reflexivity. }
  split; [exact Hvpath|]. split; [exact Hfile|].
  unfold validate. rewrite Hvpath.
  destruct (first_checks pr h') as [t4 c4].
  unfold desktop_check. rewrite Hfile, Hback, Hconf. cbn [check negb].
  destruct (closing _) as [t6 e].
  apply in_or_app. right. apply in_or_app. right. left. reflexivity.
Qed.

Lemma validate_after_install_witness :
  let files := [(Sample.template_path,
                 Str.dq "{'mcpServers':{'claude-code-orchestrator':{'command':'node'}}}");
                (Sample.target_path, Sample.existing)] in
  let h := Sample.linux files Sample.nothing_readonly in
  let pr := {| access := fun _ => true; claude_cli := true |} in
  let h' := after_writes h (writes (fst (install JsonText.parse JsonText.stringify h))) in
  In (RCheck Pass "Claude Desktop configured with orchestrator")
    (fst (validate JsonText.parse pr h'))
  /\ snd (validate JsonText.parse pr h') = Completed.
Proof.
  intros files h pr h'.
  destruct (generate JsonText.parse h) as [tg [e|g]] eqn:Hgen;
    [vm_compute in Hgen; discriminate|].
  destruct (read_existing JsonText.parse h Sample.target_path) as [t0 [e|d]] eqn:Hread;
    [vm_compute in Hread; discriminate|].
  vm_compute in Hgen. inversion Hgen; subst tg g. clear Hgen.
  vm_compute in Hread. inversion Hread; subst t0 d. clear Hread.
  split; [|vm_compute; reflexivity].
  eapply (validate_after_install JsonText.parse JsonText.stringify pr h
            _ [] [] _ _ (JObj [("command", JStr "node")]) _ Sample.target_path);
    try (vm_compute; reflexivity).
Defined.

(** * The update script *)

(** X16.  The update script runs its three commands in order and stops at
    the first that fails: the installer is started only after both [npm]
    commands have succeeded, the script ends normally only if all three
    have, and otherwise it reports the failure and exits with status 1. *)
Theorem update_stops_at_first_failure (execSync : string -> option js_error) :
  let r := update execSync in
  let all := ["npm outdated"; "npm update"; "node deploy/install.js"] in
  (snd r = Completed <-> forall c, In c all -> execSync c = None)
  /\ (exists rest, all = commands (fst r) ++ rest)
  /\ (snd r = Exited 1 <->
      exists err, execSync (List.last (commands (fst r)) "") = Some err)
  /\ (In "node deploy/install.js" (commands (fst r)) <->
      execSync "npm outdated" = None /\ execSync "npm update" = None)
  /\ (forall err,
         execSync (List.last (commands (fst r)) "") = Some err ->
         In (UError ("[ERROR] Update failed: " ++ err_message err)) (fst r)).
Proof.
  intros r all. unfold r, all, update. clear r all.
  destruct (execSync "npm outdated") as [e1|] eqn:H1.
  { split_and!.
    - split; [discriminate|]. intros Hall.
      rewrite (Hall "npm outdated") in H1 by (simpl; tauto). discriminate.
    - exists ["npm update"; "node deploy/install.js"]. reflexivity.
    - split; [intros _; exists e1; exact H1|reflexivity].
    - split; [|intros [Hc _]; discriminate].
      intros [Hc|[]]. discriminate.
    - intros err Herr. cbn in Herr. rewrite H1 in Herr. inversion Herr; subst.
      cbn. tauto. }
  destruct (execSync "npm update") as [e2|] eqn:H2.
  { split_and!.
    - split; [discriminate|]. intros Hall.
      rewrite (Hall "npm update") in H2 by (simpl; tauto). discriminate.
    - exists ["node deploy/install.js"]. reflexivity.
    - split; [intros _; exists e2; exact H2|reflexivity].
    - split; [|intros [_ Hc]; discriminate].
      intros [Hc|[Hc|[]]]; discriminate.
    - intros err Herr. cbn in Herr. rewrite H2 in Herr. inversion Herr; subst.
      cbn. tauto. }
  destruct (execSync "node deploy/install.js") as [e3|] eqn:H3.
  { split_and!.
    - split; [discriminate|]. intros Hall.
      rewrite (Hall "node deploy/install.js") in H3 by (simpl; tauto). discriminate.
    - exists []. reflexivity.
    - split; [intros _; exists e3; exact H3|reflexivity].
    - split; [intros _; split; reflexivity|]. intros _. cbn. tauto.
    - intros err Herr. cbn in Herr. rewrite H3 in Herr. inversion Herr; subst.
      cbn. tauto. }
  split_and!.
  - split; [|reflexivity]. intros _ c [<-|[<-|[<-|[]]]]; assumption.
  - exists []. reflexivity.
  - split; [discriminate|]. intros [err Herr]. cbn in Herr. congruence.
  - split; [intros _; split; reflexivity|]. intros _. cbn. tauto.
  - intros err Herr. cbn in Herr. congruence.
Qed.

(** ** Examples *)

Example trim_ex : Str.trim "  a b	 " = "a b".
Proof. reflexivity. Qed.
Example split_ex : Str.split "=" "K=a=b" = ["K"; "a"; "b"].
Proof. reflexivity. Qed.
Example split_empty_ex : Str.split "=" "" = [""].
Proof. reflexivity. Qed.
Example replace_ex : Str.replaceAll "{{X}}" "v" "a{{X}}b{{X}}" = "avbv".
Proof. reflexivity. Qed.
Example replace_dollar_ex :
  Str.replaceAll "{{X}}" "[$&|$$|$1]" "a{{X}}b" = "a[{{X}}|$|$1]b".
Proof. reflexivity. Qed.
Example replace_after_ex : Str.replaceAll "{{X}}" "$'" "{{X}} {{X}}" = " {{X}} ".
Proof. reflexivity. Qed.
Example of_N_ex : Str.of_N 0 = "0" /\ Str.of_N 1730000000000 = "1730000000000".
Proof. split; reflexivity. Qed.

Example parse_env_ex :
  let env := parse_env
               (String.concat (String (ascii_of_nat 10) EmptyString)
                  ["# paths"; "INSTALL_DIR = /srv/app "; "";
                   "HUBSPOT_MCP_URL=https://h.example/mcp?a=b";
                   "DEBUG="; "__proto__=x"]) in
  env !! "INSTALL_DIR" = Some "/srv/app"
  /\ env !! "HUBSPOT_MCP_URL" = Some "https://h.example/mcp?a=b"
  /\ env !! "DEBUG" = Some ""
  /\ env !! "__proto__" = None
  /\ env !! "# paths" = None.
Proof. repeat split; vm_compute; reflexivity. Qed.

Example escape_backslashes_ex :
  escape_backslashes "C:\Users\ada" = "C:\\Users\\ada".
Proof. reflexivity. Qed.

(** Array indices come first in an object, whatever the order of the
    sources. *)
Example spread2_order_ex :
  spread2 (Some (JObj [("b", JNum "1"); ("a", JNum "2")]))
          (Some (JObj [("a", JNum "3"); ("1", JNum "4"); ("c", JNum "5")])) =
  JObj [("1", JNum "4"); ("b", JNum "1"); ("a", JNum "3"); ("c", JNum "5")].
Proof. reflexivity. Qed.

(** The scenario of the specification: two targets, one server each. *)
Example merge_scenario_ex :
  merge (JObj [("mcpServers", JObj [("foo", JObj [("command", JStr "a")])])])
        (JObj [("mcpServers", JObj [("bar", JObj [("command", JStr "b")])])]) =
  ([], inr (JObj [("mcpServers", JObj [("foo", JObj [("command", JStr "a")]);
                                       ("bar", JObj [("command", JStr "b")])])])).
Proof. reflexivity. Qed.

(** A target that is a number: nothing to back up, and nothing to assign
    the servers to. *)
Example primitive_target_ex :
  let r := Sample.run [(Sample.template_path, Sample.template);
                       (Sample.target_path, "5")] Sample.nothing_readonly in
  snd r = Exited 1 /\ writes (fst r) = []
  /\ In (EvLog Error "Installation failed: Cannot create property 'mcpServers' on number '5'")
       (fst r).
Proof.
  intros r. split; [vm_compute; reflexivity|]. split; [vm_compute; reflexivity|].
  vm_compute. tauto.
Qed.

Example parse_stringify_ex :
  JsonText.parse (JsonText.stringify
                    (JObj [("a", JArr [JNum "1"; JBool true; JNull; JStr "x\y"]);
                           ("b", JObj [])])) =
  inr (JObj [("a", JArr [JNum "1"; JBool true; JNull; JStr "x\y"]); ("b", JObj [])]).
Proof. vm_compute. reflexivity. Qed.
